(** * Lockstep testbench of the RISC-V core: model and verified properties

    Shallow embedding of [src/sim/tb_top.cpp] (class [Testbench] and
    [main]) together with the C ABI of the reference model declared in
    [src/sim/riscv_ref.h].

    Conventions.
    - [uint32_t], [uint8_t] and [uint64_t] values are integers of [Z];
      where the source narrows or wraps a value the reduction is written
      out ([u8], [u64]).
    - The [int] counters [tests_passed], [tests_failed] and [cycles_run]
      and the loop counters are integers of [Z] or [nat]; signed overflow
      is undefined in C++, so the model describes the runs in which they
      stay below [2^31].
    - The fixed-size arrays (register file, data memory, instruction
      memory, reference memory) are lists read with [!!!] and written
      with [<[i:=v]>]; the source only indexes them inside their bounds.
    - Text written to [std::cout] and [std::cerr] is kept, in program
      order, as a list of structured lines.
    - [history] is a ghost field: every interaction of the testbench with
      the two models is appended to it in program order. *)

From Stdlib Require Import ZArith Lia.
From stdpp Require Import prelude strings.

Local Open Scope Z_scope.

(** ** Constants *)

(** [#define MEM_SIZE (4 * 1024)] *)
Definition MEM_SIZE : Z := 4 * 1024.

(** The canonical NOP, [addi x0, x0, 0 = 0x00000013]. *)
Definition NOP : Z := 0x00000013.

(** Conversions to the unsigned types of the source. *)
Definition u8 (x : Z) : Z := x mod 2 ^ 8.
Definition u64 (x : Z) : Z := x mod 2 ^ 64.

(** ** The reference model's state ([riscv_ref.h]) *)

(** [typedef struct { ... } RiscvCpu;]  The field [mem] is a pointer: it
    holds the address of the byte buffer the model is bound to. *)
Record RiscvCpu := mkRiscvCpu {
  pc : Z;
  regs : list Z;
  mem : Z;
  mem_size : Z;
  halted : bool
}.

(** ** The hardware model *)

(** The Verilated design: the two input ports, the signals the testbench
    reaches through [rootp], and the rest of the design's state, about
    which nothing is known ([Nets]). *)
Record Vcpu_top (Nets : Type) := mkVcpu_top {
  clk : Z;
  rst : Z;
  cpu_top__DOT__pc : Z;
  cpu_top__DOT__regfile__DOT__registers : list Z;
  cpu_top__DOT__dmem__DOT__mem : list Z;
  cpu_top__DOT__imem__DOT__mem : list Z;
  nets : Nets
}.
Arguments mkVcpu_top {Nets}.
Arguments clk {Nets}.
Arguments rst {Nets}.
Arguments cpu_top__DOT__pc {Nets}.
Arguments cpu_top__DOT__regfile__DOT__registers {Nets}.
Arguments cpu_top__DOT__dmem__DOT__mem {Nets}.
Arguments cpu_top__DOT__imem__DOT__mem {Nets}.
Arguments nets {Nets}.

(** ** Observable actions *)

(** The hardware arrays the testbench writes directly. *)
Inductive Array := Regfile | Dmem | Imem.

(** One interaction with a model, or one call of the comparator. *)
Inductive Op :=
  | OpClk (v : Z)                       (* rtl->clk = v *)
  | OpRst (v : Z)                       (* rtl->rst = v *)
  | OpEval                              (* rtl->eval() *)
  | OpPoke (a : Array) (i : nat) (v : Z) (* rtl->rootp->a[i] = v *)
  | OpRiscvInit                         (* riscv_init(&ref, ...) *)
  | OpRiscvStep                         (* riscv_step(&ref) *)
  | OpCompare.                          (* compareState() *)

Global Instance Array_eq_dec : EqDecision Array.
Proof. solve_decision. Defined.
Global Instance Op_eq_dec : EqDecision Op.
Proof. solve_decision. Defined.

Inductive Stream := Cout | Cerr.

(** The lines the testbench prints, one for each output statement ending
    in [std::endl], with the values they carry; a fixed text is kept as
    it is, a formatted line as its constructor and its values. *)
Inductive Line :=
  | Text (s : string)                    (* s, as it is in the source *)
  | RunningTest (name : string)          (* "\n===== Running Test: name =====" *)
  | PcMismatch (rtl_pc ref_pc : Z)       (* "PC MISMATCH: RTL=0x.. REF=0x.." *)
  | RegMismatch (i rtl_val ref_val : Z)  (* "REG xi MISMATCH: RTL=.. REF=.." *)
  | MismatchAtCycle (i : Z)              (* "Mismatch at cycle i" *)
  | StateHeader                          (* "=== CPU State ===" *)
  | StatePc (rtl_pc ref_pc : Z)          (* "PC: RTL=0x.. REF=0x.." *)
  | StateRegsHeader                      (* "Registers (non-zero):" *)
  | StateReg (i rtl_val ref_val : Z) (mismatch : bool)
                                         (* "  xi: RTL=.. REF=..", " MISMATCH!" *)
  | Pass (name : string)                 (* "PASS: name" *)
  | Fail (name : string)                 (* "FAIL: name" *)
  | TestsPassed (n : Z)                  (* "Tests Passed: n" *)
  | TestsFailed (n : Z)                  (* "Tests Failed: n" *)
  | TotalCycles (n : Z).                 (* "Total Cycles: n" *)

(** The character ['\n'], with which some of the printed strings begin. *)
Definition newline : string := String (Ascii.ascii_of_nat 10) EmptyString.

(** ** The testbench object *)

(** [uint8_t* ref_mem]: the address returned by [new uint8_t[MEM_SIZE]]
    and the bytes of the array it points to. *)
Record Buffer := mkBuffer {
  addr : Z;
  bytes : list Z
}.

(** [VerilatedVcdC]: the name of the trace file and the samples dumped
    so far, each with its time stamp. *)
Record VerilatedVcdC (Nets : Type) := mkVerilatedVcdC {
  filename : string;
  samples : list (Z * Vcpu_top Nets)
}.
Arguments mkVerilatedVcdC {Nets}.
Arguments filename {Nets}.
Arguments samples {Nets}.

(** [class Testbench].  [trace] is [None] for [nullptr]. *)
Record Testbench (Nets : Type) := mkTestbench {
  rtl : Vcpu_top Nets;
  ref : RiscvCpu;
  trace : option (VerilatedVcdC Nets);
  sim_time : Z;
  ref_mem : Buffer;
  tests_passed : Z;
  tests_failed : Z;
  cycles_run : Z;
  output : list (Stream * Line);
  history : list Op
}.
Arguments mkTestbench {Nets}.
Arguments rtl {Nets}.
Arguments ref {Nets}.
Arguments trace {Nets}.
Arguments sim_time {Nets}.
Arguments ref_mem {Nets}.
Arguments tests_passed {Nets}.
Arguments tests_failed {Nets}.
Arguments cycles_run {Nets}.
Arguments output {Nets}.
Arguments history {Nets}.

(** ** The reference model's accessors *)

(** Modelled from the spec: [riscv_init], declared in [riscv_ref.h] and
    implemented outside [src/].  "[initialize(memory, capacity)] resets
    ArchitecturalState to zero and binds the memory buffer"; the state is
    "reinitialized to all-zero (PC=0, all registers=0, halted=false) on
    every reset".  The contents of the buffer are not touched. *)
Definition riscv_init (cpu : RiscvCpu) (mem_ptr : Z) (size : Z) : RiscvCpu :=
  {| pc := 0; regs := replicate 32 0; mem := mem_ptr; mem_size := size;
     halted := false |}.

(** Modelled from the spec: [riscv_get_pc], implemented outside [src/];
    "[getPC()] ... expose read/write access". *)
Definition riscv_get_pc (cpu : RiscvCpu) : Z := pc cpu.

(** Modelled from the spec: [riscv_get_reg], implemented outside [src/];
    "register 0 reads always returning zero".  The testbench only asks
    for the registers 1 to 31. *)
Definition riscv_get_reg (cpu : RiscvCpu) (reg : Z) : Z :=
  if reg =? 0 then 0 else regs cpu !!! Z.to_nat reg.

(** Modelled from the spec: [riscv_set_reg], implemented outside [src/];
    "writes to register 0 being silently discarded". *)
Definition riscv_set_reg (cpu : RiscvCpu) (reg : Z) (value : Z) : RiscvCpu :=
  if reg =? 0 then cpu
  else {| pc := pc cpu; regs := <[Z.to_nat reg := value]> (regs cpu);
          mem := mem cpu; mem_size := mem_size cpu; halted := halted cpu |}.

(** Modelled from the spec: [riscv_is_halted], implemented outside
    [src/]; "reports whether execution has reached a terminal
    condition". *)
Definition riscv_is_halted (cpu : RiscvCpu) : bool := halted cpu.

(** ** Loops *)

(** [for (i = start; cond(i); i++) body(i)], for a condition that fails
    after at most [n] iterations. *)
Fixpoint for_while {St : Type} (n : nat) (i : nat) (cond : nat → bool)
    (body : nat → St → St) (s : St) : St :=
  match n with
  | O => s
  | S n' => if cond i then for_while n' (i + 1)%nat cond body (body i s) else s
  end.

(** [for (int i = 0; i < n; i++) body(i)] *)
Definition for_range {St : Type} (n : nat) (body : nat → St → St) (s : St) : St :=
  foldl (λ s i, body i s) s (seq 0 n).

(** ** Field updates *)

Definition with_rtl {Nets} (f : Vcpu_top Nets → Vcpu_top Nets)
    (tb : Testbench Nets) : Testbench Nets :=
  mkTestbench (f (rtl tb)) (ref tb) (trace tb) (sim_time tb) (ref_mem tb)
    (tests_passed tb) (tests_failed tb) (cycles_run tb) (output tb) (history tb).

Definition with_ref {Nets} (cpu : RiscvCpu) (tb : Testbench Nets) : Testbench Nets :=
  mkTestbench (rtl tb) cpu (trace tb) (sim_time tb) (ref_mem tb)
    (tests_passed tb) (tests_failed tb) (cycles_run tb) (output tb) (history tb).

Definition with_trace {Nets} (t : option (VerilatedVcdC Nets)) (time : Z)
    (tb : Testbench Nets) : Testbench Nets :=
  mkTestbench (rtl tb) (ref tb) t time (ref_mem tb)
    (tests_passed tb) (tests_failed tb) (cycles_run tb) (output tb) (history tb).

Definition with_ref_mem_bytes {Nets} (f : list Z → list Z)
    (tb : Testbench Nets) : Testbench Nets :=
  mkTestbench (rtl tb) (ref tb) (trace tb) (sim_time tb)
    (mkBuffer (addr (ref_mem tb)) (f (bytes (ref_mem tb))))
    (tests_passed tb) (tests_failed tb) (cycles_run tb) (output tb) (history tb).

Definition with_counters {Nets} (passed failed cycles : Z)
    (tb : Testbench Nets) : Testbench Nets :=
  mkTestbench (rtl tb) (ref tb) (trace tb) (sim_time tb) (ref_mem tb)
    passed failed cycles (output tb) (history tb).

Definition with_output {Nets} (o : list (Stream * Line))
    (tb : Testbench Nets) : Testbench Nets :=
  mkTestbench (rtl tb) (ref tb) (trace tb) (sim_time tb) (ref_mem tb)
    (tests_passed tb) (tests_failed tb) (cycles_run tb) o (history tb).

Definition with_history {Nets} (h : list Op)
    (tb : Testbench Nets) : Testbench Nets :=
  mkTestbench (rtl tb) (ref tb) (trace tb) (sim_time tb) (ref_mem tb)
    (tests_passed tb) (tests_failed tb) (cycles_run tb) (output tb) h.

(** [stream << line << std::endl] *)
Definition print {Nets} (s : Stream) (l : Line) (tb : Testbench Nets) : Testbench Nets :=
  with_output (output tb ++ [(s, l)]) tb.

(** Ghost: append one action to the history. *)
Definition record {Nets} (o : Op) (tb : Testbench Nets) : Testbench Nets :=
  with_history (history tb ++ [o]) tb.

Definition set_clk {Nets} (v : Z) (r : Vcpu_top Nets) : Vcpu_top Nets :=
  mkVcpu_top v (rst r) (cpu_top__DOT__pc r)
    (cpu_top__DOT__regfile__DOT__registers r) (cpu_top__DOT__dmem__DOT__mem r)
    (cpu_top__DOT__imem__DOT__mem r) (nets r).

Definition set_rst {Nets} (v : Z) (r : Vcpu_top Nets) : Vcpu_top Nets :=
  mkVcpu_top (clk r) v (cpu_top__DOT__pc r)
    (cpu_top__DOT__regfile__DOT__registers r) (cpu_top__DOT__dmem__DOT__mem r)
    (cpu_top__DOT__imem__DOT__mem r) (nets r).

(** Updating the contents of one of the hardware arrays. *)
Definition set_array {Nets} (a : Array) (f : list Z → list Z)
    (r : Vcpu_top Nets) : Vcpu_top Nets :=
  match a with
  | Regfile =>
      mkVcpu_top (clk r) (rst r) (cpu_top__DOT__pc r)
        (f (cpu_top__DOT__regfile__DOT__registers r))
        (cpu_top__DOT__dmem__DOT__mem r) (cpu_top__DOT__imem__DOT__mem r) (nets r)
  | Dmem =>
      mkVcpu_top (clk r) (rst r) (cpu_top__DOT__pc r)
        (cpu_top__DOT__regfile__DOT__registers r)
        (f (cpu_top__DOT__dmem__DOT__mem r)) (cpu_top__DOT__imem__DOT__mem r) (nets r)
  | Imem =>
      mkVcpu_top (clk r) (rst r) (cpu_top__DOT__pc r)
        (cpu_top__DOT__regfile__DOT__registers r) (cpu_top__DOT__dmem__DOT__mem r)
        (f (cpu_top__DOT__imem__DOT__mem r)) (nets r)
  end.

(** [rtl->rootp->a[i] = v], with its entry in the history. *)
Definition poke {Nets} (a : Array) (i : nat) (v : Z) (tb : Testbench Nets) : Testbench Nets :=
  record (OpPoke a i v) (with_rtl (set_array a (<[i:=v]>)) tb).

(** ** The programs of [main] *)

Definition test_add : list Z :=
  [ 0x00500093    (* addi x1, x0, 5 *)
  ; 0x00300113    (* addi x2, x0, 3 *)
  ; 0x002081b3    (* add  x3, x1, x2 *)
  ; 0x00000013 ]. (* nop *)

Definition test_sub : list Z :=
  [ 0x00A00093    (* addi x1, x0, 10 *)
  ; 0x00300113    (* addi x2, x0, 3 *)
  ; 0x402081b3    (* sub  x3, x1, x2 *)
  ; 0x00000013 ]. (* nop *)

Definition test_logic : list Z :=
  [ 0x0FF00093    (* addi x1, x0, 255 *)
  ; 0x0F000113    (* addi x2, x0, 240 *)
  ; 0x002071b3    (* and  x3, x1, x2 *)
  ; 0x0020E233    (* or   x4, x1, x2 *)
  ; 0x0020C2B3    (* xor  x5, x1, x2 *)
  ; 0x00000013 ]. (* nop *)

Definition test_imm : list Z :=
  [ 0x01400093    (* addi x1, x0, 20 *)
  ; 0x00A0F113    (* andi x2, x1, 10 *)
  ; 0x00F0E193    (* ori  x3, x1, 15 *)
  ; 0x00000013 ]. (* nop *)

Definition test_shift : list Z :=
  [ 0x00800093    (* addi x1, x0, 8 *)
  ; 0x00209113    (* slli x2, x1, 2 *)
  ; 0x0020D193    (* srli x3, x1, 2 *)
  ; 0x00000013 ]. (* nop *)

(** ** The methods of [Testbench] *)

Section Testbench.

Context {Nets : Type}.

(** [Vcpu_top::eval()], the combinational and clocked update of the
    hardware model: a collaborator outside this repository's sources. *)
Variable eval : Vcpu_top Nets → Vcpu_top Nets.

(** [riscv_step], implemented outside [src/]: it updates the CPU
    structure and the bytes of the buffer [cpu->mem] points to, which
    [riscv_init] binds to the testbench's [ref_mem]. *)
Variable riscv_step : RiscvCpu → list Z → RiscvCpu * list Z.

Local Abbreviation Tb := (Testbench Nets).

(** The constructor.  [rtl0] is the state of a freshly constructed
    [Vcpu_top] and [a] the address of the freshly allocated buffer. *)
Definition Testbench_new (rtl0 : Vcpu_top Nets) (a : Z) : Tb :=
  let ref_mem := replicate (Z.to_nat MEM_SIZE) 0 in         (* memset(ref_mem, 0, MEM_SIZE) *)
  let ref_mem :=
    for_range (Z.to_nat (MEM_SIZE / 4)) (λ k m,
      let i := (4 * k)%nat in                               (* i += 4 *)
      let m := <[(i + 0)%nat := 0x13]> m in
      let m := <[(i + 1)%nat := 0x00]> m in
      let m := <[(i + 2)%nat := 0x00]> m in
      <[(i + 3)%nat := 0x00]> m) ref_mem in
  let tb :=
    {| rtl := rtl0;
       ref := mkRiscvCpu 0 [] 0 0 false;   (* not yet initialised *)
       trace := None;
       sim_time := 0;
       ref_mem := mkBuffer a ref_mem;
       tests_passed := 0;
       tests_failed := 0;
       cycles_run := 0;
       output := [];
       history := [] |} in
  record OpRiscvInit (with_ref (riscv_init (ref tb) a MEM_SIZE) tb).

(** [openTrace]: from here on [trace] is not null. *)
Definition openTrace (filename : string) (tb : Tb) : Tb :=
  with_trace (Some (mkVerilatedVcdC filename [])) (sim_time tb) tb.

(** [if (trace) trace->dump(sim_time++);] *)
Definition trace_dump (tb : Tb) : Tb :=
  match trace tb with
  | Some vcd =>
      with_trace
        (Some (mkVerilatedVcdC (filename vcd) (samples vcd ++ [(sim_time tb, rtl tb)])))
        (u64 (sim_time tb + 1)) tb
  | None => tb
  end.

(** [rtl->eval()] *)
Definition rtl_eval (tb : Tb) : Tb := record OpEval (with_rtl eval tb).

Definition tick (tb : Tb) : Tb :=
  (* Rising edge *)
  let tb := record (OpClk 1) (with_rtl (set_clk 1) tb) in
  let tb := rtl_eval tb in
  let tb := trace_dump tb in
  (* Falling edge *)
  let tb := record (OpClk 0) (with_rtl (set_clk 0) tb) in
  let tb := rtl_eval tb in
  let tb := trace_dump tb in
  with_counters (tests_passed tb) (tests_failed tb) (cycles_run tb + 1) tb.

Definition reset (tb : Tb) : Tb :=
  let tb := record (OpRst 1) (with_rtl (set_rst 1) tb) in
  let tb := for_range 5 (λ _ tb, tick tb) tb in
  let tb := record (OpRst 0) (with_rtl (set_rst 0) tb) in
  (* Manually clear RTL registers *)
  let tb := for_range 32 (λ i tb, poke Regfile i 0 tb) tb in
  (* Clear RTL data memory *)
  let tb := for_range 1024 (λ i tb, poke Dmem i 0 tb) tb in
  (* Reset reference model *)
  record OpRiscvInit
    (with_ref (riscv_init (ref tb) (addr (ref_mem tb)) MEM_SIZE) tb).

(** The four stores of one iteration of the first loop of [loadProgram]. *)
Definition store_instr (i : nat) (instr : Z) (m : list Z) : list Z :=
  let m := <[(i * 4 + 0)%nat := u8 (Z.land (Z.shiftr instr 0) 0xFF)]> m in
  let m := <[(i * 4 + 1)%nat := u8 (Z.land (Z.shiftr instr 8) 0xFF)]> m in
  let m := <[(i * 4 + 2)%nat := u8 (Z.land (Z.shiftr instr 16) 0xFF)]> m in
  <[(i * 4 + 3)%nat := u8 (Z.land (Z.shiftr instr 24) 0xFF)]> m.

Definition loadProgram (program : list Z) (tb : Tb) : Tb :=
  (* Load into reference model memory *)
  let tb :=
    for_while (length program) 0
      (λ i, bool_decide (i < length program)%nat && (Z.of_nat i * 4 <? MEM_SIZE))
      (λ i tb, let instr := program !!! i in
               with_ref_mem_bytes (store_instr i instr) tb) tb in
  (* Also load into RTL instruction memory *)
  let tb :=
    for_while (length program) 0
      (λ i, bool_decide (i < length program)%nat && bool_decide (i < 1024)%nat)
      (λ i tb, poke Imem i (program !!! i) tb) tb in
  (* Fill rest with NOPs *)
  for_while (1024 - length program) (length program)
    (λ i, bool_decide (i < 1024)%nat)
    (λ i tb, poke Imem i 0x00000013 tb) tb.

(** [getRtlReg] *)
Definition getRtlReg (tb : Tb) (reg : Z) : Z :=
  if reg =? 0 then 0
  else cpu_top__DOT__regfile__DOT__registers (rtl tb) !!! Z.to_nat reg.

Definition getRtlPc (tb : Tb) : Z := cpu_top__DOT__pc (rtl tb).

(** The body of the register loop of [compareState]; [m] is [match]. *)
Definition compare_reg (st : bool * Tb) (i : Z) : bool * Tb :=
  let '(m, tb) := st in
  let rtl_val := getRtlReg tb i in
  let ref_val := riscv_get_reg (ref tb) i in
  if negb (rtl_val =? ref_val)
  then (false, print Cerr (RegMismatch i rtl_val ref_val) tb)
  else (m, tb).

Definition compareState (tb : Tb) : bool * Tb :=
  let tb := record OpCompare tb in
  let m := true in
  (* Compare PC *)
  let rtl_pc := getRtlPc tb in
  let ref_pc := riscv_get_pc (ref tb) in
  let '(m, tb) :=
    if negb (rtl_pc =? ref_pc)
    then (false, print Cerr (PcMismatch rtl_pc ref_pc) tb)
    else (m, tb) in
  (* Compare registers: for (int i = 1; i < 32; i++) *)
  foldl compare_reg (m, tb) (Z.of_nat <$> seq 1 31).

Definition stepAndCompare (tb : Tb) : Tb :=
  (* Step RTL (one clock cycle) *)
  let tb := tick tb in
  (* Step reference model (one instruction) *)
  let '(cpu, m) := riscv_step (ref tb) (bytes (ref_mem tb)) in
  record OpRiscvStep (with_ref_mem_bytes (λ _, m) (with_ref cpu tb)).

(** The body of the register loop of [printState]. *)
Definition print_reg (tb : Tb) (i : Z) : Tb :=
  let rtl_val := getRtlReg tb i in
  let ref_val := riscv_get_reg (ref tb) i in
  if negb (rtl_val =? 0) || negb (ref_val =? 0)
  then print Cout (StateReg i rtl_val ref_val (negb (rtl_val =? ref_val))) tb
  else tb.

Definition printState (tb : Tb) : Tb :=
  let tb := print Cout StateHeader tb in
  let tb := print Cout (StatePc (getRtlPc tb) (riscv_get_pc (ref tb))) tb in
  let tb := print Cout StateRegsHeader tb in
  foldl print_reg tb (Z.of_nat <$> seq 1 31).

(** The comparison loop of [runTest],
    [for (int i = 0; i < cycles; i++)], with [n] iterations left; the
    result is [all_match] and the state at the loop's exit. *)
Fixpoint runTest_loop (n : nat) (i : Z) (tb : Tb) : bool * Tb :=
  match n with
  | O => (true, tb)
  | S n' =>
      let tb := stepAndCompare tb in
      let '(m, tb) := compareState tb in
      if negb m then
        let tb := print Cerr (MismatchAtCycle i) tb in
        let tb := printState tb in
        (false, tb)                                   (* break *)
      else runTest_loop n' (i + 1) tb
  end.

Definition runTest (name : string) (program : list Z) (cycles : Z) (tb : Tb) : Tb :=
  let tb := print Cout (RunningTest name) tb in
  let tb := loadProgram program tb in
  let tb := reset tb in
  let '(all_match, tb) := runTest_loop (Z.to_nat cycles) 0 tb in
  let tb :=
    if all_match
    then with_counters (tests_passed tb + 1) (tests_failed tb) (cycles_run tb)
           (print Cout (Pass name) tb)
    else with_counters (tests_passed tb) (tests_failed tb + 1) (cycles_run tb)
           (print Cout (Fail name) tb) in
  printState tb.

(** [main]: the exit status and the testbench at exit, before its
    destructor runs.  [rtl0] and [a] are what the two allocations of the
    constructor return; the command-line arguments are only handed to
    [Verilated::commandArgs]. *)
Definition main (rtl0 : Vcpu_top Nets) (a : Z) : Z * Tb :=
  let tb := Testbench_new rtl0 a in
  let tb := openTrace "sim_trace.vcd" tb in
  let tb := print Cout (Text "========================================") tb in
  let tb := print Cout (Text "RISC-V CPU Verification Testbench") tb in
  let tb := print Cout (Text "RTL vs Reference Model Comparison") tb in
  let tb := print Cout (Text "========================================") tb in
  let tb := runTest "Simple Add" test_add 4 tb in
  let tb := runTest "Subtraction" test_sub 4 tb in
  let tb := runTest "Logical Ops" test_logic 6 tb in
  let tb := runTest "Immediate Ops" test_imm 4 tb in
  let tb := runTest "Shifts" test_shift 4 tb in
  (* Summary *)
  let tb :=
    print Cout (Text (String.append newline "========================================"))
      tb in
  let tb := print Cout (Text "Test Summary") tb in
  let tb := print Cout (Text "========================================") tb in
  let tb := print Cout (TestsPassed (tests_passed tb)) tb in
  let tb := print Cout (TestsFailed (tests_failed tb)) tb in
  let tb := print Cout (TotalCycles (cycles_run tb)) tb in
  if tests_failed tb =? 0
  then (0, print Cout (Text (String.append newline "*** ALL TESTS PASSED ***")) tb)
  else (1, print Cout (Text (String.append newline "*** SOME TESTS FAILED ***")) tb).

End Testbench.

(** ** Vocabulary of the statements *)

(** Byte [k] of the word [w], counted from the least significant one. *)
Definition byte_of (k : nat) (w : Z) : Z :=
  Z.land (Z.shiftr w (8 * Z.of_nat k)) 0xFF.

(** The 32-bit word stored little-endian at word index [i] of a byte
    memory. *)
Definition word_at (m : list Z) (i : nat) : option Z :=
  b0 ← m !! (4 * i)%nat; b1 ← m !! (4 * i + 1)%nat;
  b2 ← m !! (4 * i + 2)%nat; b3 ← m !! (4 * i + 3)%nat;
  Some (b0 + 2 ^ 8 * b1 + 2 ^ 16 * b2 + 2 ^ 24 * b3).

(** The actions of one [tick], of one comparison round, of [reset] and
    of [loadProgram]. *)
Definition tick_ops : list Op := [OpClk 1; OpEval; OpClk 0; OpEval].

Definition round_ops : list Op := tick_ops ++ [OpRiscvStep; OpCompare].

Definition reset_ops : list Op :=
  [OpRst 1] ++ concat (replicate 5 tick_ops) ++ [OpRst 0]
  ++ ((λ i, OpPoke Regfile i 0) <$> seq 0 32)
  ++ ((λ i, OpPoke Dmem i 0) <$> seq 0 1024)
  ++ [OpRiscvInit].

Definition load_ops (program : list Z) : list Op :=
  ((λ i, OpPoke Imem i (program !!! i)) <$> seq 0 (length program `min` 1024))
  ++ ((λ i, OpPoke Imem i NOP) <$> seq (length program) (1024 - length program)).

(** What the loops of [loadProgram] leave in the two memories. *)
Definition load_bytes (program : list Z) (m : list Z) : list Z :=
  foldl (λ m i, store_instr i (program !!! i) m) m
    (seq 0 (length program `min` 1024)).

Definition load_imem (program : list Z) (m : list Z) : list Z :=
  foldl (λ m i, <[i:=NOP]> m)
    (foldl (λ m i, <[i:=program !!! i]> m) m (seq 0 (length program `min` 1024)))
    (seq (length program) (1024 - length program)).

(** Number of [riscv_step] calls in a history. *)
Definition steps_in (h : list Op) : nat := count_occ Op_eq_dec h OpRiscvStep.

(** Number of [tick]s in a history: every tick raises the clock once. *)
Definition ticks_in (h : list Op) : nat := count_occ Op_eq_dec h (OpClk 1).

(** Whether the two models agree on the compared state: the program
    counter and the registers [x1] to [x31]. *)
Definition reg_agrees {Nets} (tb : Testbench Nets) (i : Z) : bool :=
  getRtlReg tb i =? riscv_get_reg (ref tb) i.

Definition states_agree {Nets} (tb : Testbench Nets) : bool :=
  (getRtlPc tb =? riscv_get_pc (ref tb))
  && forallb (reg_agrees tb) (Z.of_nat <$> seq 1 31).

(** The lines [compareState] writes to [std::cerr]. *)
Definition reg_mismatch_lines {Nets} (tb : Testbench Nets) (l : list Z)
    : list (Stream * Line) :=
  flat_map (λ i, if reg_agrees tb i then []
                 else [(Cerr, RegMismatch i (getRtlReg tb i) (riscv_get_reg (ref tb) i))]) l.

Definition mismatch_lines {Nets} (tb : Testbench Nets) : list (Stream * Line) :=
  (if getRtlPc tb =? riscv_get_pc (ref tb) then []
   else [(Cerr, PcMismatch (getRtlPc tb) (riscv_get_pc (ref tb)))])
  ++ reg_mismatch_lines tb (Z.of_nat <$> seq 1 31).

(** The state dump [printState] writes to [std::cout]. *)
Definition reg_dump_lines {Nets} (tb : Testbench Nets) (l : list Z)
    : list (Stream * Line) :=
  flat_map (λ i, let rtl_val := getRtlReg tb i in
                 let ref_val := riscv_get_reg (ref tb) i in
                 if negb (rtl_val =? 0) || negb (ref_val =? 0)
                 then [(Cout, StateReg i rtl_val ref_val (negb (rtl_val =? ref_val)))]
                 else []) l.

Definition state_dump {Nets} (tb : Testbench Nets) : list (Stream * Line) :=
  [(Cout, StateHeader); (Cout, StatePc (getRtlPc tb) (riscv_get_pc (ref tb)));
   (Cout, StateRegsHeader)]
  ++ reg_dump_lines tb (Z.of_nat <$> seq 1 31).

(** Two testbenches whose hardware models, reference CPUs and reference
    memories are the same; they may differ in their counters, their
    trace and what they have printed. *)
Definition same_models {Nets} (tb tb' : Testbench Nets) : Prop :=
  rtl tb = rtl tb' ∧ ref tb = ref tb' ∧ ref_mem tb = ref_mem tb'.

(** Whether a trace is open, and the number of samples dumped so far. *)
Definition tracing {Nets} (tb : Testbench Nets) : bool :=
  match trace tb with Some _ => true | None => false end.

Definition dumped {Nets} (tb : Testbench Nets) : nat :=
  match trace tb with Some v => length (samples v) | None => 0%nat end.

(** The samples dumped beyond two per counted cycle. *)
Definition lag {Nets} (tb : Testbench Nets) : Z :=
  Z.of_nat (dumped tb) - (if tracing tb then 2 * cycles_run tb else 0).

(** Overwriting entry 0 of the reference model's register array. *)
Definition set_regs0 (v : Z) (cpu : RiscvCpu) : RiscvCpu :=
  mkRiscvCpu (pc cpu) (<[0%nat:=v]> (regs cpu)) (mem cpu) (mem_size cpu) (halted cpu).

Section Rounds.

Context {Nets : Type}.
Variable eval : Vcpu_top Nets → Vcpu_top Nets.
Variable riscv_step : RiscvCpu → list Z → RiscvCpu * list Z.

(** One clock cycle of the hardware: two half-cycle evaluations. *)
Definition cycle (r : Vcpu_top Nets) : Vcpu_top Nets :=
  eval (set_clk 0 (eval (set_clk 1 r))).

(** The hardware state [reset] leaves: five cycles under reset, the reset
    input released, the register file and the data memory cleared. *)
Definition reset_rtl (r : Vcpu_top Nets) : Vcpu_top Nets :=
  set_array Dmem (λ m, foldl (λ m i, <[i:=0]> m) m (seq 0 1024))
    (set_array Regfile (λ m, foldl (λ m i, <[i:=0]> m) m (seq 0 32))
       (set_rst 0 (Nat.iter 5 cycle (set_rst 1 r)))).

(** One comparison round of [runTest]: its verdict and the state it
    leaves. *)
Definition round (tb : Testbench Nets) : bool * Testbench Nets :=
  compareState (stepAndCompare eval riscv_step tb).

(** The state after [k] comparison rounds. *)
Definition after_rounds (k : nat) (tb : Testbench Nets) : Testbench Nets :=
  Nat.iter k (λ t, (round t).2) tb.

(** The verdict of the round of zero-based index [k]. *)
Definition round_matches (k : nat) (tb : Testbench Nets) : bool :=
  (round (after_rounds k tb)).1.

(** The state in which the comparison loop of [runTest] starts. *)
Definition test_start (name : string) (program : list Z)
    (tb : Testbench Nets) : Testbench Nets :=
  reset eval (loadProgram program (print Cout (RunningTest name) tb)).

(** Whether a test ends with [all_match == false]. *)
Definition test_fails (name : string) (program : list Z) (cycles : Z)
    (tb : Testbench Nets) : bool :=
  negb (runTest_loop eval riscv_step (Z.to_nat cycles) 0
          (test_start name program tb)).1.

(** Number of failing tests when a list of tests is run in order. *)
Fixpoint count_failures (tests : list (string * list Z * Z))
    (tb : Testbench Nets) : nat :=
  match tests with
  | [] => 0%nat
  | (name, program, cycles) :: tests =>
      ((if test_fails name program cycles tb then 1 else 0)
       + count_failures tests (runTest eval riscv_step name program cycles tb))%nat
  end.

(** Running a list of tests, one [runTest] call after the other. *)
Definition run_tests (tests : list (string * list Z * Z))
    (tb : Testbench Nets) : Testbench Nets :=
  foldl (λ tb t, runTest eval riscv_step t.1.1 t.1.2 t.2 tb) tb tests.

(** The testbench of [main] when its first test starts. *)
Definition main_start (rtl0 : Vcpu_top Nets) (a : Z) : Testbench Nets :=
  print Cout (Text "========================================")
    (print Cout (Text "RTL vs Reference Model Comparison")
       (print Cout (Text "RISC-V CPU Verification Testbench")
          (print Cout (Text "========================================")
             (openTrace "sim_trace.vcd" (Testbench_new rtl0 a))))).

End Rounds.

(** The tests of [main], in order. *)
Definition main_tests : list (string * list Z * Z) :=
  [ ("Simple Add"%string, test_add, 4); ("Subtraction"%string, test_sub, 4);
    ("Logical Ops"%string, test_logic, 6); ("Immediate Ops"%string, test_imm, 4);
    ("Shifts"%string, test_shift, 4) ].

(** The total of the cycle budgets of a list of tests, a budget below
    zero counting as zero. *)
Definition total_budget (tests : list (string * list Z * Z)) : Z :=
  foldr (λ t acc, Z.of_nat (Z.to_nat t.2) + acc) 0 tests.

(** The shape of the hardware arrays: 32 registers and two memories of
    1024 words. *)
Definition rtl_shape {Nets} (r : Vcpu_top Nets) : Prop :=
  length (cpu_top__DOT__regfile__DOT__registers r) = 32%nat
  ∧ length (cpu_top__DOT__dmem__DOT__mem r) = 1024%nat
  ∧ length (cpu_top__DOT__imem__DOT__mem r) = 1024%nat.

(** ** Small concrete models, to run the testbench on *)

(** A hardware model that only counts: reset clears the program counter,
    every other rising edge advances it by four. *)
Definition count_eval (r : Vcpu_top unit) : Vcpu_top unit :=
  if clk r =? 1 then
    mkVcpu_top (clk r) (rst r)
      (if rst r =? 1 then 0 else (cpu_top__DOT__pc r + 4) mod 2 ^ 32)
      (cpu_top__DOT__regfile__DOT__registers r) (cpu_top__DOT__dmem__DOT__mem r)
      (cpu_top__DOT__imem__DOT__mem r) tt
  else r.

(** A reference model that treats every instruction as a NOP. *)
Definition nop_step (cpu : RiscvCpu) (m : list Z) : RiscvCpu * list Z :=
  (mkRiscvCpu ((pc cpu + 4) mod 2 ^ 32) (regs cpu) (mem cpu) (mem_size cpu)
     (halted cpu), m).

(** A reference model that also writes 7 to [x1] when it executes the
    instruction at address 8. *)
Definition odd_step (cpu : RiscvCpu) (m : list Z) : RiscvCpu * list Z :=
  if pc cpu =? 8 then nop_step (riscv_set_reg cpu 1 7) m else nop_step cpu m.

Definition zero_rtl : Vcpu_top unit :=
  mkVcpu_top 0 0 0 (replicate 32 0) (replicate 1024 0) (replicate 1024 0) tt.

Definition zero_tb : Testbench unit := Testbench_new zero_rtl 4096.

(** A program of 1030 words, longer than either memory. *)
Definition long_program : list Z := replicate 1030 0x00500093.

(** A testbench with the models of [zero_tb], an open trace and counters
    that have already moved. *)
Definition traced_tb : Testbench unit :=
  with_counters 3 4 5 (openTrace "wave.vcd" zero_tb).

(** ** Loops as folds *)

Lemma for_while_seq {St : Type} (cond : nat → bool) (body : nat → St → St) (k : nat) :
  ∀ (n i : nat) (s : St),
    (k ≤ n)%nat →
    (∀ j, (i ≤ j < i + k)%nat → cond j = true) →
    (k = n ∨ cond (i + k)%nat = false) →
    for_while n i cond body s = foldl (λ s j, body j s) s (seq i k).
Proof.
  induction k as [|k IH]; intros n i s Hle Hc Hend.
  - destruct n as [|n]; [done|]. simpl.
    destruct Hend as [?|Hend]; [lia|].
    rewrite Nat.add_0_r in Hend. by rewrite Hend.
  - destruct n as [|n]; [lia|]. simpl.
    rewrite Hc by lia. rewrite Nat.add_1_r. apply IH; [lia| |].
    + intros j Hj. apply Hc. lia.
    + destruct Hend as [?|Hend]; [left; lia|right].
      by replace (S i + k)%nat with (i + S k)%nat by lia.
Qed.

(** Once the condition of a loop has failed, more iterations allowed
    change nothing. *)
Lemma for_while_fuel {St : Type} (cond : nat → bool) (body : nat → St → St) :
  ∀ (n n' i : nat) (s : St),
    (n ≤ n')%nat → cond (i + n)%nat = false →
    for_while n' i cond body s = for_while n i cond body s.
Proof.
  induction n as [|n IH]; intros n' i s Hle Hend.
  - rewrite Nat.add_0_r in Hend. destruct n'; simpl; [done|by rewrite Hend].
  - destruct n' as [|n']; [lia|]. simpl. destruct (cond i); [|done].
    apply IH; [lia|]. by replace (i + 1 + n)%nat with (i + S n)%nat by lia.
Qed.

Lemma foldl_preserves {A B C : Type} (proj : A → C) (f : A → B → A) (l : list B) :
  (∀ a b, proj (f a b) = proj a) → ∀ a, proj (foldl f a l) = proj a.
Proof.
  intros Hf. induction l as [|b l IH]; intros a; simpl; [done|].
  by rewrite IH, Hf.
Qed.

(** ** Writes into lists *)

Lemma foldl_insert_length (g : nat → Z) (l : list nat) :
  ∀ m : list Z, length (foldl (λ m i, <[i:=g i]> m) m l) = length m.
Proof.
  induction l as [|i l IH]; intros m; simpl; [done|].
  by rewrite IH, length_insert.
Qed.

Lemma foldl_insert_seq_lookup (g : nat → Z) (n : nat) :
  ∀ (a : nat) (m : list Z) (j : nat),
    foldl (λ m i, <[i:=g i]> m) m (seq a n) !! j
    = if bool_decide ((a ≤ j < a + n)%nat ∧ (j < length m)%nat)
      then Some (g j) else m !! j.
Proof.
  induction n as [|n IH]; intros a m j; simpl.
  - rewrite bool_decide_eq_false_2 by lia. done.
  - rewrite IH, length_insert.
    destruct (decide (j = a)) as [->|Hne].
    + rewrite (bool_decide_eq_false_2 (_ ∧ _)) by lia.
      case_bool_decide.
      * apply list_lookup_insert_eq. lia.
      * rewrite list_insert_ge by lia. done.
    + rewrite list_lookup_insert_ne by done.
      apply (f_equal (λ b : bool, if b then _ else _)).
      apply bool_decide_ext. lia.
Qed.

Lemma store_instr_length (i : nat) (w : Z) (m : list Z) :
  length (store_instr i w m) = length m.
Proof. unfold store_instr. by rewrite !length_insert. Qed.

Lemma u8_land (x : Z) : u8 (Z.land x 0xFF) = Z.land x 0xFF.
Proof.
  unfold u8. change 0xFF with (Z.ones 8).
  rewrite Z.land_ones by lia. apply Z.mod_mod. lia.
Qed.

Lemma store_instr_lookup (i : nat) (w : Z) (m : list Z) (j : nat) :
  (i * 4 + 3 < length m)%nat →
  store_instr i w m !! j
  = if bool_decide (i * 4 ≤ j < i * 4 + 4)%nat
    then Some (byte_of (j - i * 4) w) else m !! j.
Proof.
  intros Hlen. unfold store_instr, byte_of. rewrite !u8_land.
  case_bool_decide as Hj.
  - assert (j = i * 4 + 0 ∨ j = i * 4 + 1 ∨ j = i * 4 + 2 ∨ j = i * 4 + 3)%nat
      as [-> | [-> | [-> | ->]]] by lia.
    + rewrite !list_lookup_insert_ne by lia.
      rewrite list_lookup_insert_eq by lia.
      by replace (i * 4 + 0 - i * 4)%nat with 0%nat by lia.
    + rewrite !list_lookup_insert_ne by lia.
      rewrite list_lookup_insert_eq by (rewrite ?length_insert; lia).
      by replace (i * 4 + 1 - i * 4)%nat with 1%nat by lia.
    + rewrite !list_lookup_insert_ne by lia.
      rewrite list_lookup_insert_eq by (rewrite ?length_insert; lia).
      by replace (i * 4 + 2 - i * 4)%nat with 2%nat by lia.
    + rewrite list_lookup_insert_eq by (rewrite ?length_insert; lia).
      by replace (i * 4 + 3 - i * 4)%nat with 3%nat by lia.
  - rewrite !list_lookup_insert_ne by lia. done.
Qed.

Lemma foldl_store_instr_length (f : nat → Z) (l : list nat) :
  ∀ m : list Z, length (foldl (λ m i, store_instr i (f i) m) m l) = length m.
Proof.
  induction l as [|i l IH]; intros m; simpl; [done|].
  by rewrite IH, store_instr_length.
Qed.

Lemma foldl_store_instr_lookup (f : nat → Z) (n : nat) :
  ∀ (m : list Z) (j : nat),
    (4 * n ≤ length m)%nat →
    foldl (λ m i, store_instr i (f i) m) m (seq 0 n) !! j
    = if bool_decide (j < 4 * n)%nat
      then Some (byte_of (j mod 4)%nat (f (j / 4)%nat)) else m !! j.
Proof.
  induction n as [|n IH]; intros m j Hlen.
  - by rewrite bool_decide_eq_false_2 by lia.
  - rewrite seq_S, foldl_app. cbn [foldl Nat.add].
    rewrite store_instr_lookup by (rewrite foldl_store_instr_length; lia).
    rewrite IH by lia.
    pose proof (Nat.div_mod_eq j 4). pose proof (Nat.mod_upper_bound j 4).
    destruct (decide (n * 4 ≤ j < n * 4 + 4)%nat) as [Hj|Hj].
    + rewrite bool_decide_eq_true_2 by done.
      rewrite bool_decide_eq_true_2 by lia.
      replace (j - n * 4)%nat with (j mod 4)%nat by lia.
      by replace (j / 4)%nat with n by lia.
    + rewrite bool_decide_eq_false_2 by done.
      apply (f_equal (λ b : bool, if b then _ else _)).
      apply bool_decide_ext. lia.
Qed.

(** ** [loadProgram] in closed form *)

Section LoadProgram.

Context {Nets : Type}.
Implicit Types tb : Testbench Nets.

Lemma foldl_with_ref_mem_bytes {B : Type} (f : B → list Z → list Z) (l : list B) :
  ∀ tb, foldl (λ tb j, with_ref_mem_bytes (f j) tb) tb l
        = with_ref_mem_bytes (λ m, foldl (λ m j, f j m) m l) tb.
Proof.
  induction l as [|j l IH]; intros tb; simpl.
  - by destruct tb as [? ? ? ? [] ? ? ? ? ?].
  - by rewrite IH.
Qed.

Lemma foldl_poke (a : Array) (g : nat → Z) (l : list nat) :
  ∀ tb, foldl (λ tb j, poke a j (g j) tb) tb l
        = with_history (history tb ++ ((λ j, OpPoke a j (g j)) <$> l))
            (with_rtl (set_array a (λ m, foldl (λ m j, <[j:=g j]> m) m l)) tb).
Proof.
  induction l as [|j l IH]; intros tb; simpl.
  - destruct tb as [[] ? ? ? ? ? ? ? ? ?]. destruct a; simpl;
      unfold with_history, with_rtl; simpl; by rewrite app_nil_r.
  - rewrite IH. unfold poke, record, with_history, with_rtl. simpl.
    rewrite <- app_assoc. simpl. by destruct a.
Qed.

Lemma loadProgram_eq (program : list Z) tb :
  loadProgram program tb
  = with_history (history tb ++ load_ops program)
      (with_rtl (set_array Imem (load_imem program))
         (with_ref_mem_bytes (load_bytes program) tb)).
Proof.
  unfold loadProgram.
  rewrite (for_while_seq _ _ (1024 - length program)%nat); [|lia| |]; cycle 1.
  { intros j Hj. apply bool_decide_eq_true_2. lia. }
  { by left. }
  rewrite (for_while_seq _ _ (length program `min` 1024)%nat); [|lia| |]; cycle 1.
  { intros j Hj. apply andb_true_intro.
    split; apply bool_decide_eq_true_2; lia. }
  { destruct (decide (length program ≤ 1024)%nat); [left; lia|right].
    apply andb_false_intro2, bool_decide_eq_false_2. lia. }
  rewrite (for_while_seq _ _ (length program `min` 1024)%nat); [|lia| |]; cycle 1.
  { intros j Hj. apply andb_true_intro.
    split; [apply bool_decide_eq_true_2; lia|apply Z.ltb_lt; unfold MEM_SIZE; lia]. }
  { destruct (decide (length program ≤ 1024)%nat); [left; lia|right].
    apply andb_false_intro2, Z.ltb_ge. unfold MEM_SIZE. lia. }
  rewrite (foldl_with_ref_mem_bytes (λ i, store_instr i (program !!! i))).
  rewrite (foldl_poke Imem (λ i, program !!! i)).
  rewrite (foldl_poke Imem (λ _, 0x00000013)).
  unfold load_ops, load_imem, load_bytes, with_history, with_rtl, with_ref_mem_bytes.
  simpl. by rewrite <- app_assoc.
Qed.

End LoadProgram.

(** ** Reading a field after an update *)

Section Fields.

Context {Nets : Type}.
Implicit Types tb : Testbench Nets.

Lemma rtl_with_rtl (f : Vcpu_top Nets → Vcpu_top Nets) tb : rtl (with_rtl f tb) = f (rtl tb).
Proof. reflexivity. Qed.
Lemma ref_with_rtl (f : Vcpu_top Nets → Vcpu_top Nets) tb : ref (with_rtl f tb) = ref tb.
Proof. reflexivity. Qed.
Lemma ref_mem_with_rtl (f : Vcpu_top Nets → Vcpu_top Nets) tb : ref_mem (with_rtl f tb) = ref_mem tb.
Proof. reflexivity. Qed.
Lemma tests_passed_with_rtl (f : Vcpu_top Nets → Vcpu_top Nets) tb : tests_passed (with_rtl f tb) = tests_passed tb.
Proof. reflexivity. Qed.
Lemma tests_failed_with_rtl (f : Vcpu_top Nets → Vcpu_top Nets) tb : tests_failed (with_rtl f tb) = tests_failed tb.
Proof. reflexivity. Qed.
Lemma cycles_run_with_rtl (f : Vcpu_top Nets → Vcpu_top Nets) tb : cycles_run (with_rtl f tb) = cycles_run tb.
Proof. reflexivity. Qed.
Lemma output_with_rtl (f : Vcpu_top Nets → Vcpu_top Nets) tb : output (with_rtl f tb) = output tb.
Proof. reflexivity. Qed.
Lemma history_with_rtl (f : Vcpu_top Nets → Vcpu_top Nets) tb : history (with_rtl f tb) = history tb.
Proof. reflexivity. Qed.
Lemma rtl_with_ref (cpu : RiscvCpu) tb : rtl (with_ref cpu tb) = rtl tb.
Proof. reflexivity. Qed.
Lemma ref_with_ref (cpu : RiscvCpu) tb : ref (with_ref cpu tb) = cpu.
Proof. reflexivity. Qed.
Lemma ref_mem_with_ref (cpu : RiscvCpu) tb : ref_mem (with_ref cpu tb) = ref_mem tb.
Proof. reflexivity. Qed.
Lemma tests_passed_with_ref (cpu : RiscvCpu) tb : tests_passed (with_ref cpu tb) = tests_passed tb.
Proof. reflexivity. Qed.
Lemma tests_failed_with_ref (cpu : RiscvCpu) tb : tests_failed (with_ref cpu tb) = tests_failed tb.
Proof. reflexivity. Qed.
Lemma cycles_run_with_ref (cpu : RiscvCpu) tb : cycles_run (with_ref cpu tb) = cycles_run tb.
Proof. reflexivity. Qed.
Lemma output_with_ref (cpu : RiscvCpu) tb : output (with_ref cpu tb) = output tb.
Proof. reflexivity. Qed.
Lemma history_with_ref (cpu : RiscvCpu) tb : history (with_ref cpu tb) = history tb.
Proof. reflexivity. Qed.
Lemma rtl_with_ref_mem_bytes (f : list Z → list Z) tb : rtl (with_ref_mem_bytes f tb) = rtl tb.
Proof. reflexivity. Qed.
Lemma ref_with_ref_mem_bytes (f : list Z → list Z) tb : ref (with_ref_mem_bytes f tb) = ref tb.
Proof. reflexivity. Qed.
Lemma ref_mem_with_ref_mem_bytes (f : list Z → list Z) tb : ref_mem (with_ref_mem_bytes f tb) = mkBuffer (addr (ref_mem tb)) (f (bytes (ref_mem tb))).
Proof. reflexivity. Qed.
Lemma tests_passed_with_ref_mem_bytes (f : list Z → list Z) tb : tests_passed (with_ref_mem_bytes f tb) = tests_passed tb.
Proof. reflexivity. Qed.
Lemma tests_failed_with_ref_mem_bytes (f : list Z → list Z) tb : tests_failed (with_ref_mem_bytes f tb) = tests_failed tb.
Proof. reflexivity. Qed.
Lemma cycles_run_with_ref_mem_bytes (f : list Z → list Z) tb : cycles_run (with_ref_mem_bytes f tb) = cycles_run tb.
Proof. reflexivity. Qed.
Lemma output_with_ref_mem_bytes (f : list Z → list Z) tb : output (with_ref_mem_bytes f tb) = output tb.
Proof. reflexivity. Qed.
Lemma history_with_ref_mem_bytes (f : list Z → list Z) tb : history (with_ref_mem_bytes f tb) = history tb.
Proof. reflexivity. Qed.
Lemma rtl_with_counters (p q c : Z) tb : rtl (with_counters p q c tb) = rtl tb.
Proof. reflexivity. Qed.
Lemma ref_with_counters (p q c : Z) tb : ref (with_counters p q c tb) = ref tb.
Proof. reflexivity. Qed.
Lemma ref_mem_with_counters (p q c : Z) tb : ref_mem (with_counters p q c tb) = ref_mem tb.
Proof. reflexivity. Qed.
Lemma tests_passed_with_counters (p q c : Z) tb : tests_passed (with_counters p q c tb) = p.
Proof. reflexivity. Qed.
Lemma tests_failed_with_counters (p q c : Z) tb : tests_failed (with_counters p q c tb) = q.
Proof. reflexivity. Qed.
Lemma cycles_run_with_counters (p q c : Z) tb : cycles_run (with_counters p q c tb) = c.
Proof. reflexivity. Qed.
Lemma output_with_counters (p q c : Z) tb : output (with_counters p q c tb) = output tb.
Proof. reflexivity. Qed.
Lemma history_with_counters (p q c : Z) tb : history (with_counters p q c tb) = history tb.
Proof. reflexivity. Qed.
Lemma rtl_with_output (o : list (Stream * Line)) tb : rtl (with_output o tb) = rtl tb.
Proof. reflexivity. Qed.
Lemma ref_with_output (o : list (Stream * Line)) tb : ref (with_output o tb) = ref tb.
Proof. reflexivity. Qed.
Lemma ref_mem_with_output (o : list (Stream * Line)) tb : ref_mem (with_output o tb) = ref_mem tb.
Proof. reflexivity. Qed.
Lemma tests_passed_with_output (o : list (Stream * Line)) tb : tests_passed (with_output o tb) = tests_passed tb.
Proof. reflexivity. Qed.
Lemma tests_failed_with_output (o : list (Stream * Line)) tb : tests_failed (with_output o tb) = tests_failed tb.
Proof. reflexivity. Qed.
Lemma cycles_run_with_output (o : list (Stream * Line)) tb : cycles_run (with_output o tb) = cycles_run tb.
Proof. reflexivity. Qed.
Lemma output_with_output (o : list (Stream * Line)) tb : output (with_output o tb) = o.
Proof. reflexivity. Qed.
Lemma history_with_output (o : list (Stream * Line)) tb : history (with_output o tb) = history tb.
Proof. reflexivity. Qed.
Lemma rtl_with_history (h : list Op) tb : rtl (with_history h tb) = rtl tb.
Proof. reflexivity. Qed.
Lemma ref_with_history (h : list Op) tb : ref (with_history h tb) = ref tb.
Proof. reflexivity. Qed.
Lemma ref_mem_with_history (h : list Op) tb : ref_mem (with_history h tb) = ref_mem tb.
Proof. reflexivity. Qed.
Lemma tests_passed_with_history (h : list Op) tb : tests_passed (with_history h tb) = tests_passed tb.
Proof. reflexivity. Qed.
Lemma tests_failed_with_history (h : list Op) tb : tests_failed (with_history h tb) = tests_failed tb.
Proof. reflexivity. Qed.
Lemma cycles_run_with_history (h : list Op) tb : cycles_run (with_history h tb) = cycles_run tb.
Proof. reflexivity. Qed.
Lemma output_with_history (h : list Op) tb : output (with_history h tb) = output tb.
Proof. reflexivity. Qed.
Lemma history_with_history (h : list Op) tb : history (with_history h tb) = h.
Proof. reflexivity. Qed.
Lemma rtl_print (s : Stream) (l : Line) tb : rtl (print s l tb) = rtl tb.
Proof. reflexivity. Qed.
Lemma ref_print (s : Stream) (l : Line) tb : ref (print s l tb) = ref tb.
Proof. reflexivity. Qed.
Lemma ref_mem_print (s : Stream) (l : Line) tb : ref_mem (print s l tb) = ref_mem tb.
Proof. reflexivity. Qed.
Lemma tests_passed_print (s : Stream) (l : Line) tb : tests_passed (print s l tb) = tests_passed tb.
Proof. reflexivity. Qed.
Lemma tests_failed_print (s : Stream) (l : Line) tb : tests_failed (print s l tb) = tests_failed tb.
Proof. reflexivity. Qed.
Lemma cycles_run_print (s : Stream) (l : Line) tb : cycles_run (print s l tb) = cycles_run tb.
Proof. reflexivity. Qed.
Lemma output_print (s : Stream) (l : Line) tb : output (print s l tb) = output tb ++ [(s, l)].
Proof. reflexivity. Qed.
Lemma history_print (s : Stream) (l : Line) tb : history (print s l tb) = history tb.
Proof. reflexivity. Qed.
Lemma rtl_record (o : Op) tb : rtl (record o tb) = rtl tb.
Proof. reflexivity. Qed.
Lemma ref_record (o : Op) tb : ref (record o tb) = ref tb.
Proof. reflexivity. Qed.
Lemma ref_mem_record (o : Op) tb : ref_mem (record o tb) = ref_mem tb.
Proof. reflexivity. Qed.
Lemma tests_passed_record (o : Op) tb : tests_passed (record o tb) = tests_passed tb.
Proof. reflexivity. Qed.
Lemma tests_failed_record (o : Op) tb : tests_failed (record o tb) = tests_failed tb.
Proof. reflexivity. Qed.
Lemma cycles_run_record (o : Op) tb : cycles_run (record o tb) = cycles_run tb.
Proof. reflexivity. Qed.
Lemma output_record (o : Op) tb : output (record o tb) = output tb.
Proof. reflexivity. Qed.
Lemma history_record (o : Op) tb : history (record o tb) = history tb ++ [o].
Proof. reflexivity. Qed.

End Fields.

Create Rewrite HintDb fields.

Hint Rewrite
  @rtl_with_rtl
  @ref_with_rtl
  @ref_mem_with_rtl
  @tests_passed_with_rtl
  @tests_failed_with_rtl
  @cycles_run_with_rtl
  @output_with_rtl
  @history_with_rtl
  @rtl_with_ref
  @ref_with_ref
  @ref_mem_with_ref
  @tests_passed_with_ref
  @tests_failed_with_ref
  @cycles_run_with_ref
  @output_with_ref
  @history_with_ref
  @rtl_with_ref_mem_bytes
  @ref_with_ref_mem_bytes
  @ref_mem_with_ref_mem_bytes
  @tests_passed_with_ref_mem_bytes
  @tests_failed_with_ref_mem_bytes
  @cycles_run_with_ref_mem_bytes
  @output_with_ref_mem_bytes
  @history_with_ref_mem_bytes
  @rtl_with_counters
  @ref_with_counters
  @ref_mem_with_counters
  @tests_passed_with_counters
  @tests_failed_with_counters
  @cycles_run_with_counters
  @output_with_counters
  @history_with_counters
  @rtl_with_output
  @ref_with_output
  @ref_mem_with_output
  @tests_passed_with_output
  @tests_failed_with_output
  @cycles_run_with_output
  @output_with_output
  @history_with_output
  @rtl_with_history
  @ref_with_history
  @ref_mem_with_history
  @tests_passed_with_history
  @tests_failed_with_history
  @cycles_run_with_history
  @output_with_history
  @history_with_history
  @rtl_print
  @ref_print
  @ref_mem_print
  @tests_passed_print
  @tests_failed_print
  @cycles_run_print
  @output_print
  @history_print
  @rtl_record
  @ref_record
  @ref_mem_record
  @tests_passed_record
  @tests_failed_record
  @cycles_run_record
  @output_record
  @history_record
  : fields.

(** ** The methods in closed form *)

Section Methods.

Context {Nets : Type}.
Variable eval : Vcpu_top Nets → Vcpu_top Nets.
Variable riscv_step : RiscvCpu → list Z → RiscvCpu * list Z.
Implicit Types tb : Testbench Nets.

Lemma with_output_same tb : with_output (output tb) tb = tb.
Proof. by destruct tb. Qed.

Lemma foldl_compare_reg (l : list Z) :
  ∀ (m : bool) tb,
    foldl compare_reg (m, tb) l
    = (m && forallb (reg_agrees tb) l,
       with_output (output tb ++ reg_mismatch_lines tb l) tb).
Proof.
  induction l as [|i l IH]; intros m tb; cbn [foldl forallb reg_mismatch_lines flat_map].
  - by rewrite andb_true_r, app_nil_r, with_output_same.
  - unfold compare_reg at 2. fold (reg_agrees tb i).
    destruct (reg_agrees tb i) eqn:Hi; cbn [negb].
    + rewrite IH. by rewrite andb_true_l.
    + rewrite IH. rewrite andb_false_r. f_equal.
      unfold print, with_output. cbn. by rewrite <- app_assoc.
Qed.

Lemma compareState_eq tb :
  compareState tb
  = (states_agree tb,
     with_output (output tb ++ mismatch_lines tb) (record OpCompare tb)).
Proof.
  unfold compareState, states_agree, mismatch_lines.
  change (getRtlPc (record OpCompare tb)) with (getRtlPc tb).
  change (ref (record OpCompare tb)) with (ref tb).
  destruct (getRtlPc tb =? riscv_get_pc (ref tb)); cbn [negb];
    rewrite foldl_compare_reg; f_equal.
  unfold print, with_output. cbn. by rewrite <- app_assoc.
Qed.

Lemma foldl_print_reg (l : list Z) :
  ∀ tb, foldl print_reg tb l
        = with_output (output tb ++ reg_dump_lines tb l) tb.
Proof.
  induction l as [|i l IH]; intros tb; cbn [foldl reg_dump_lines flat_map].
  - by rewrite app_nil_r, with_output_same.
  - unfold print_reg at 2.
    destruct (negb (getRtlReg tb i =? 0) || negb (riscv_get_reg (ref tb) i =? 0));
      rewrite IH; [|done].
    unfold print, with_output. cbn. by rewrite <- app_assoc.
Qed.

Lemma printState_eq tb :
  printState tb = with_output (output tb ++ state_dump tb) tb.
Proof.
  unfold printState, state_dump. rewrite foldl_print_reg.
  unfold print, with_output. cbn. by rewrite <- !app_assoc.
Qed.

Lemma stepAndCompare_eq tb :
  stepAndCompare eval riscv_step tb
  = let t := tick eval tb in
    let r := riscv_step (ref t) (bytes (ref_mem t)) in
    record OpRiscvStep (with_ref_mem_bytes (λ _, r.2) (with_ref r.1 t)).
Proof. unfold stepAndCompare. cbn zeta. by destruct (riscv_step _ _). Qed.

(** *** [tick] *)

Lemma trace_dump_rtl tb : rtl (trace_dump tb) = rtl tb.
Proof. unfold trace_dump. by destruct (trace tb). Qed.
Lemma trace_dump_ref tb : ref (trace_dump tb) = ref tb.
Proof. unfold trace_dump. by destruct (trace tb). Qed.
Lemma trace_dump_ref_mem tb : ref_mem (trace_dump tb) = ref_mem tb.
Proof. unfold trace_dump. by destruct (trace tb). Qed.
Lemma trace_dump_tests_passed tb : tests_passed (trace_dump tb) = tests_passed tb.
Proof. unfold trace_dump. by destruct (trace tb). Qed.
Lemma trace_dump_tests_failed tb : tests_failed (trace_dump tb) = tests_failed tb.
Proof. unfold trace_dump. by destruct (trace tb). Qed.
Lemma trace_dump_cycles_run tb : cycles_run (trace_dump tb) = cycles_run tb.
Proof. unfold trace_dump. by destruct (trace tb). Qed.
Lemma trace_dump_output tb : output (trace_dump tb) = output tb.
Proof. unfold trace_dump. by destruct (trace tb). Qed.
Lemma trace_dump_history tb : history (trace_dump tb) = history tb.
Proof. unfold trace_dump. by destruct (trace tb). Qed.

Hint Rewrite trace_dump_rtl trace_dump_ref trace_dump_ref_mem
  trace_dump_tests_passed trace_dump_tests_failed trace_dump_cycles_run
  trace_dump_output trace_dump_history : fields.

Ltac solve_tick :=
  intros; unfold tick, rtl_eval; autorewrite with fields;
  rewrite <- ?app_assoc; reflexivity.

Lemma tick_rtl tb : rtl (tick eval tb) = cycle eval (rtl tb).
Proof. solve_tick. Qed.
Lemma tick_ref tb : ref (tick eval tb) = ref tb.
Proof. solve_tick. Qed.
Lemma tick_ref_mem tb : ref_mem (tick eval tb) = ref_mem tb.
Proof. solve_tick. Qed.
Lemma tick_tests_passed tb : tests_passed (tick eval tb) = tests_passed tb.
Proof. solve_tick. Qed.
Lemma tick_tests_failed tb : tests_failed (tick eval tb) = tests_failed tb.
Proof. solve_tick. Qed.
Lemma tick_cycles_run tb : cycles_run (tick eval tb) = cycles_run tb + 1.
Proof. solve_tick. Qed.
Lemma tick_output tb : output (tick eval tb) = output tb.
Proof. solve_tick. Qed.
Lemma tick_history tb : history (tick eval tb) = history tb ++ tick_ops.
Proof. solve_tick. Qed.

Hint Rewrite tick_rtl tick_ref tick_ref_mem tick_tests_passed tick_tests_failed
  tick_cycles_run tick_output tick_history : fields.

(** [n] ticks in a row. *)
Lemma ticks_rtl (l : list nat) :
  ∀ tb, rtl (foldl (λ tb _, tick eval tb) tb l) = Nat.iter (length l) (cycle eval) (rtl tb).
Proof.
  induction l as [|i l IH]; intros tb; cbn [foldl length]; [done|].
  by rewrite IH, tick_rtl, Nat.iter_succ_r.
Qed.

Lemma ticks_ref (l : list nat) tb : ref (foldl (λ tb _, tick eval tb) tb l) = ref tb.
Proof. apply foldl_preserves. intros. apply tick_ref. Qed.

Lemma ticks_ref_mem (l : list nat) tb :
  ref_mem (foldl (λ tb _, tick eval tb) tb l) = ref_mem tb.
Proof. apply foldl_preserves. intros. apply tick_ref_mem. Qed.

Lemma ticks_tests_passed (l : list nat) tb :
  tests_passed (foldl (λ tb _, tick eval tb) tb l) = tests_passed tb.
Proof. apply foldl_preserves. intros. apply tick_tests_passed. Qed.

Lemma ticks_tests_failed (l : list nat) tb :
  tests_failed (foldl (λ tb _, tick eval tb) tb l) = tests_failed tb.
Proof. apply foldl_preserves. intros. apply tick_tests_failed. Qed.

Lemma ticks_output (l : list nat) tb :
  output (foldl (λ tb _, tick eval tb) tb l) = output tb.
Proof. apply foldl_preserves. intros. apply tick_output. Qed.

Lemma ticks_cycles_run (l : list nat) :
  ∀ tb, cycles_run (foldl (λ tb _, tick eval tb) tb l)
        = cycles_run tb + Z.of_nat (length l).
Proof.
  induction l as [|i l IH]; intros tb; cbn [foldl length]; [lia|].
  rewrite IH, tick_cycles_run. lia.
Qed.

Lemma ticks_history (l : list nat) :
  ∀ tb, history (foldl (λ tb _, tick eval tb) tb l)
        = history tb ++ concat (replicate (length l) tick_ops).
Proof.
  induction l as [|i l IH]; intros tb; cbn [foldl length replicate concat].
  - by rewrite app_nil_r.
  - by rewrite IH, tick_history, <- app_assoc.
Qed.

Hint Rewrite ticks_rtl ticks_ref ticks_ref_mem ticks_tests_passed
  ticks_tests_failed ticks_output ticks_cycles_run ticks_history : fields.

(** *** [reset] *)

Ltac solve_reset :=
  intros; unfold reset, for_range;
  rewrite !(foldl_poke _ (λ _, 0));
  autorewrite with fields; rewrite ?length_seq;
  rewrite <- ?app_assoc; try reflexivity.

Lemma reset_rtl_eq tb : rtl (reset eval tb) = reset_rtl eval (rtl tb).
Proof. solve_reset. Qed.

Lemma reset_ref tb :
  ref (reset eval tb) = mkRiscvCpu 0 (replicate 32 0) (addr (ref_mem tb)) MEM_SIZE false.
Proof. solve_reset. Qed.

Lemma reset_ref_mem tb : ref_mem (reset eval tb) = ref_mem tb.
Proof. solve_reset. Qed.

Lemma reset_tests_passed tb : tests_passed (reset eval tb) = tests_passed tb.
Proof. solve_reset. Qed.

Lemma reset_tests_failed tb : tests_failed (reset eval tb) = tests_failed tb.
Proof. solve_reset. Qed.

Lemma reset_output tb : output (reset eval tb) = output tb.
Proof. solve_reset. Qed.

Lemma reset_cycles_run tb : cycles_run (reset eval tb) = cycles_run tb + 5.
Proof. solve_reset. Qed.

Lemma reset_history tb : history (reset eval tb) = history tb ++ reset_ops.
Proof. solve_reset. Qed.

(** *** [loadProgram] *)

Ltac solve_load := intros; rewrite loadProgram_eq; reflexivity.

Lemma loadProgram_ref (p : list Z) tb : ref (loadProgram p tb) = ref tb.
Proof. solve_load. Qed.
Lemma loadProgram_tests_passed (p : list Z) tb :
  tests_passed (loadProgram p tb) = tests_passed tb.
Proof. solve_load. Qed.
Lemma loadProgram_tests_failed (p : list Z) tb :
  tests_failed (loadProgram p tb) = tests_failed tb.
Proof. solve_load. Qed.
Lemma loadProgram_cycles_run (p : list Z) tb :
  cycles_run (loadProgram p tb) = cycles_run tb.
Proof. solve_load. Qed.
Lemma loadProgram_output (p : list Z) tb : output (loadProgram p tb) = output tb.
Proof. solve_load. Qed.
Lemma loadProgram_history (p : list Z) tb :
  history (loadProgram p tb) = history tb ++ load_ops p.
Proof. solve_load. Qed.
Lemma loadProgram_bytes (p : list Z) tb :
  bytes (ref_mem (loadProgram p tb)) = load_bytes p (bytes (ref_mem tb)).
Proof. solve_load. Qed.
Lemma loadProgram_addr (p : list Z) tb :
  addr (ref_mem (loadProgram p tb)) = addr (ref_mem tb).
Proof. solve_load. Qed.
Lemma loadProgram_imem (p : list Z) tb :
  cpu_top__DOT__imem__DOT__mem (rtl (loadProgram p tb))
  = load_imem p (cpu_top__DOT__imem__DOT__mem (rtl tb)).
Proof. solve_load. Qed.

(** *** One comparison round *)

Ltac solve_step :=
  intros; rewrite stepAndCompare_eq; cbv zeta; autorewrite with fields;
  cbn [bytes addr]; rewrite <- ?app_assoc; reflexivity.

Lemma stepAndCompare_rtl tb : rtl (stepAndCompare eval riscv_step tb) = cycle eval (rtl tb).
Proof. solve_step. Qed.
Lemma stepAndCompare_ref tb :
  ref (stepAndCompare eval riscv_step tb)
  = (riscv_step (ref tb) (bytes (ref_mem tb))).1.
Proof. solve_step. Qed.
Lemma stepAndCompare_bytes tb :
  bytes (ref_mem (stepAndCompare eval riscv_step tb))
  = (riscv_step (ref tb) (bytes (ref_mem tb))).2.
Proof. solve_step. Qed.
Lemma stepAndCompare_addr tb :
  addr (ref_mem (stepAndCompare eval riscv_step tb)) = addr (ref_mem tb).
Proof. solve_step. Qed.
Lemma stepAndCompare_tests_passed tb :
  tests_passed (stepAndCompare eval riscv_step tb) = tests_passed tb.
Proof. solve_step. Qed.
Lemma stepAndCompare_tests_failed tb :
  tests_failed (stepAndCompare eval riscv_step tb) = tests_failed tb.
Proof. solve_step. Qed.
Lemma stepAndCompare_cycles_run tb :
  cycles_run (stepAndCompare eval riscv_step tb) = cycles_run tb + 1.
Proof. solve_step. Qed.
Lemma stepAndCompare_output tb :
  output (stepAndCompare eval riscv_step tb) = output tb.
Proof. solve_step. Qed.
Lemma stepAndCompare_history tb :
  history (stepAndCompare eval riscv_step tb)
  = history tb ++ tick_ops ++ [OpRiscvStep].
Proof. solve_step. Qed.

Hint Rewrite stepAndCompare_rtl stepAndCompare_ref stepAndCompare_tests_passed
  stepAndCompare_tests_failed stepAndCompare_cycles_run stepAndCompare_output
  stepAndCompare_history : fields.

Ltac solve_round :=
  intros; unfold round; rewrite compareState_eq; cbn [fst snd];
  autorewrite with fields; rewrite <- ?app_assoc; reflexivity.

Lemma round_verdict tb :
  (round eval riscv_step tb).1 = states_agree (stepAndCompare eval riscv_step tb).
Proof. solve_round. Qed.
Lemma round_rtl tb : rtl (round eval riscv_step tb).2 = cycle eval (rtl tb).
Proof. solve_round. Qed.
Lemma round_ref tb :
  ref (round eval riscv_step tb).2 = (riscv_step (ref tb) (bytes (ref_mem tb))).1.
Proof. solve_round. Qed.
Lemma round_tests_passed tb :
  tests_passed (round eval riscv_step tb).2 = tests_passed tb.
Proof. solve_round. Qed.
Lemma round_tests_failed tb :
  tests_failed (round eval riscv_step tb).2 = tests_failed tb.
Proof. solve_round. Qed.
Lemma round_cycles_run tb :
  cycles_run (round eval riscv_step tb).2 = cycles_run tb + 1.
Proof. solve_round. Qed.
Lemma round_history tb :
  history (round eval riscv_step tb).2 = history tb ++ round_ops.
Proof. solve_round. Qed.
Lemma round_output_match tb :
  (round eval riscv_step tb).1 = true →
  output (round eval riscv_step tb).2 = output tb.
Proof.
  rewrite round_verdict. unfold round. rewrite compareState_eq.
  cbn [snd]. autorewrite with fields.
  generalize (stepAndCompare eval riscv_step tb). intros s Hs.
  unfold states_agree in Hs. apply andb_prop in Hs as [Hpc Hregs].
  unfold mismatch_lines. rewrite Hpc. cbn [app].
  enough (reg_mismatch_lines s (Z.of_nat <$> seq 1 31) = []) as -> by apply app_nil_r.
  revert Hregs. generalize (Z.of_nat <$> seq 1 31).
  induction l as [|i l IH]; cbn [forallb reg_mismatch_lines flat_map]; [done|].
  intros [Hi Hl]%andb_prop. rewrite Hi. by apply IH.
Qed.

(** *** Several rounds *)

Lemma after_rounds_S (k : nat) tb :
  after_rounds eval riscv_step (S k) tb
  = after_rounds eval riscv_step k (round eval riscv_step tb).2.
Proof. unfold after_rounds. by rewrite Nat.iter_succ_r. Qed.

Lemma round_matches_S (k : nat) tb :
  round_matches eval riscv_step (S k) tb
  = round_matches eval riscv_step k (round eval riscv_step tb).2.
Proof. unfold round_matches. by rewrite after_rounds_S. Qed.

Lemma after_rounds_tests_passed (k : nat) :
  ∀ tb, tests_passed (after_rounds eval riscv_step k tb) = tests_passed tb.
Proof.
  induction k as [|k IH]; intros tb; [done|].
  by rewrite after_rounds_S, IH, round_tests_passed.
Qed.

Lemma after_rounds_tests_failed (k : nat) :
  ∀ tb, tests_failed (after_rounds eval riscv_step k tb) = tests_failed tb.
Proof.
  induction k as [|k IH]; intros tb; [done|].
  by rewrite after_rounds_S, IH, round_tests_failed.
Qed.

Lemma after_rounds_cycles_run (k : nat) :
  ∀ tb, cycles_run (after_rounds eval riscv_step k tb) = cycles_run tb + Z.of_nat k.
Proof.
  induction k as [|k IH]; intros tb; [cbn; lia|].
  rewrite after_rounds_S, IH, round_cycles_run. lia.
Qed.

Lemma after_rounds_history (k : nat) :
  ∀ tb, history (after_rounds eval riscv_step k tb)
        = history tb ++ concat (replicate k round_ops).
Proof.
  induction k as [|k IH]; intros tb.
  - cbn. by rewrite app_nil_r.
  - rewrite after_rounds_S, IH, round_history. cbn [replicate concat].
    by rewrite <- app_assoc.
Qed.

Lemma after_rounds_output (k : nat) :
  ∀ tb, (∀ j, (j < k)%nat → round_matches eval riscv_step j tb = true) →
        output (after_rounds eval riscv_step k tb) = output tb.
Proof.
  induction k as [|k IH]; intros tb Hall; [done|].
  rewrite after_rounds_S, IH.
  - apply round_output_match. apply (Hall 0%nat). lia.
  - intros j Hj. rewrite <- round_matches_S. apply Hall. lia.
Qed.

(** *** The comparison loop *)

Lemma round_matches_0 tb :
  round_matches eval riscv_step 0 tb = (round eval riscv_step tb).1.
Proof. reflexivity. Qed.

Lemma runTest_loop_S (n : nat) (i : Z) tb :
  runTest_loop eval riscv_step (S n) i tb
  = if (round eval riscv_step tb).1
    then runTest_loop eval riscv_step n (i + 1) (round eval riscv_step tb).2
    else (false, printState (print Cerr (MismatchAtCycle i) (round eval riscv_step tb).2)).
Proof.
  cbn [runTest_loop]. fold (round eval riscv_step tb).
  by destruct (round eval riscv_step tb) as [[] ?].
Qed.

Lemma runTest_loop_all_match (n : nat) :
  ∀ (i : Z) tb,
    (∀ j, (j < n)%nat → round_matches eval riscv_step j tb = true) →
    runTest_loop eval riscv_step n i tb = (true, after_rounds eval riscv_step n tb).
Proof.
  induction n as [|n IH]; intros i tb Hall; [done|].
  rewrite runTest_loop_S, <- round_matches_0, Hall by lia.
  rewrite IH, after_rounds_S; [done|].
  intros j Hj. rewrite <- round_matches_S. apply Hall. lia.
Qed.

Lemma runTest_loop_mismatch (k : nat) :
  ∀ (n : nat) (i : Z) tb,
    (k < n)%nat →
    (∀ j, (j < k)%nat → round_matches eval riscv_step j tb = true) →
    round_matches eval riscv_step k tb = false →
    runTest_loop eval riscv_step n i tb
    = (false, printState (print Cerr (MismatchAtCycle (i + Z.of_nat k))
                            (after_rounds eval riscv_step (S k) tb))).
Proof.
  induction k as [|k IH]; intros n i tb Hk Hall Hbad;
    (destruct n as [|n]; [lia|]); rewrite runTest_loop_S, <- round_matches_0.
  - rewrite Hbad, Z.add_0_r. reflexivity.
  - rewrite Hall by lia. rewrite (IH n (i + 1)); [|lia| |].
    + rewrite (after_rounds_S (S k)). do 4 f_equal. lia.
    + intros j Hj. rewrite <- round_matches_S. apply Hall. lia.
    + by rewrite <- round_matches_S.
Qed.

(** Either every round of a budget matches, or there is a first round
    that does not. *)
Lemma first_mismatch (n : nat) tb :
  (∀ j, (j < n)%nat → round_matches eval riscv_step j tb = true)
  ∨ (∃ k, (k < n)%nat
          ∧ (∀ j, (j < k)%nat → round_matches eval riscv_step j tb = true)
          ∧ round_matches eval riscv_step k tb = false).
Proof.
  induction n as [|n [IH|IH]].
  - left. intros j Hj. lia.
  - destruct (round_matches eval riscv_step n tb) eqn:Hn.
    + left. intros j Hj. destruct (decide (j = n)) as [->|]; [done|apply IH; lia].
    + right. exists n. split; [lia|]. split; [|done]. intros j Hj. by apply IH.
  - right. destruct IH as (k & Hk & Hall & Hbad). exists k. split; [lia|done].
Qed.

End Methods.

Hint Rewrite
  @tick_rtl @tick_ref @tick_ref_mem @tick_tests_passed @tick_tests_failed
  @tick_cycles_run @tick_output @tick_history
  @reset_rtl_eq @reset_ref @reset_ref_mem @reset_tests_passed @reset_tests_failed
  @reset_cycles_run @reset_output @reset_history
  @loadProgram_ref @loadProgram_tests_passed @loadProgram_tests_failed
  @loadProgram_cycles_run @loadProgram_output @loadProgram_history
  @stepAndCompare_rtl @stepAndCompare_ref @stepAndCompare_tests_passed
  @stepAndCompare_tests_failed @stepAndCompare_cycles_run @stepAndCompare_output
  @stepAndCompare_history
  @round_rtl @round_ref @round_tests_passed @round_tests_failed @round_cycles_run
  @round_history
  @after_rounds_tests_passed @after_rounds_tests_failed @after_rounds_cycles_run
  @after_rounds_history
  @printState_eq
  : fields.

(** ** The comparator *)

Lemma reg_indices (i : Z) : i ∈ (Z.of_nat <$> seq 1 31) ↔ 1 ≤ i ≤ 31.
Proof.
  rewrite list_elem_of_fmap. split.
  - intros (k & -> & Hk%elem_of_seq). lia.
  - intros Hi. exists (Z.to_nat i). rewrite elem_of_seq. lia.
Qed.

Lemma states_agree_true {Nets} (tb : Testbench Nets) :
  states_agree tb = true
  ↔ getRtlPc tb = riscv_get_pc (ref tb)
    ∧ ∀ i, 1 ≤ i ≤ 31 → getRtlReg tb i = riscv_get_reg (ref tb) i.
Proof.
  unfold states_agree. rewrite andb_true_iff, Z.eqb_eq, forallb_forall.
  apply and_iff_compat_l. split.
  - intros H i Hi. apply Z.eqb_eq, H, list_elem_of_In, reg_indices, Hi.
  - intros H i Hi%list_elem_of_In%reg_indices. apply Z.eqb_eq, H, Hi.
Qed.

(** The verdict only reads the program counters and the registers
    [x1] to [x31] of the two models. *)
Lemma states_agree_ext {Nets} (tb tb' : Testbench Nets) :
  getRtlPc tb' = getRtlPc tb →
  riscv_get_pc (ref tb') = riscv_get_pc (ref tb) →
  (∀ i, 1 ≤ i ≤ 31 → getRtlReg tb' i = getRtlReg tb i) →
  (∀ i, 1 ≤ i ≤ 31 → riscv_get_reg (ref tb') i = riscv_get_reg (ref tb) i) →
  states_agree tb' = states_agree tb.
Proof.
  intros Hpc Hpc' Hr Hr'. apply eq_true_iff_eq. rewrite !states_agree_true.
  rewrite Hpc, Hpc'. apply and_iff_compat_l.
  split; intros H i Hi; specialize (H i Hi).
  - by rewrite <- Hr, <- Hr'.
  - by rewrite Hr, Hr'.
Qed.

(** [getRtlReg] and [riscv_get_reg] on the compared indices, and
    [getRtlPc], in terms of the arrays and fields they read. *)
Lemma getRtlReg_read {Nets} (tb : Testbench Nets) (i : Z) :
  1 ≤ i ≤ 31 →
  getRtlReg tb i = cpu_top__DOT__regfile__DOT__registers (rtl tb) !!! Z.to_nat i.
Proof.
  intros Hi. unfold getRtlReg. destruct (Z.eqb_spec i 0); [lia|done].
Qed.

Lemma riscv_get_reg_read (cpu : RiscvCpu) (i : Z) :
  1 ≤ i ≤ 31 → riscv_get_reg cpu i = regs cpu !!! Z.to_nat i.
Proof.
  intros Hi. unfold riscv_get_reg. destruct (Z.eqb_spec i 0); [lia|done].
Qed.

Lemma getRtlPc_read {Nets} (tb : Testbench Nets) :
  getRtlPc tb = cpu_top__DOT__pc (rtl tb).
Proof. reflexivity. Qed.

(** C2.  [compareState] returns true exactly when the hardware program
    counter [cpu_top__DOT__pc] equals the reference program counter and,
    for every register index [i] from 1 to 31, entry [i] of the hardware
    register array [cpu_top__DOT__regfile__DOT__registers] equals the
    reference register [i]; with the reference accessors as modelled,
    these are the fields [pc] and [regs] of the reference CPU.  Register
    0 is skipped: overwriting entry 0 of either register array leaves the
    verdict unchanged.  Memory is not compared: replacing the contents of
    the reference memory, of the hardware data memory and of the hardware
    instruction memory leaves the verdict unchanged. *)
Theorem compareState_verdict {Nets} (tb : Testbench Nets) :
  ((compareState tb).1 = true
   ↔ cpu_top__DOT__pc (rtl tb) = riscv_get_pc (ref tb)
     ∧ ∀ i, 1 ≤ i ≤ 31 →
            cpu_top__DOT__regfile__DOT__registers (rtl tb) !!! Z.to_nat i
            = riscv_get_reg (ref tb) i)
  ∧ ((compareState tb).1 = true
     ↔ cpu_top__DOT__pc (rtl tb) = pc (ref tb)
       ∧ ∀ i, 1 ≤ i ≤ 31 →
              cpu_top__DOT__regfile__DOT__registers (rtl tb) !!! Z.to_nat i
              = regs (ref tb) !!! Z.to_nat i)
  ∧ (∀ v v' : Z,
       (compareState
          (with_ref (set_regs0 v' (ref tb))
             (with_rtl (set_array Regfile (<[0%nat:=v]>)) tb))).1
       = (compareState tb).1)
  ∧ (∀ m d im : list Z,
       (compareState
          (with_ref_mem_bytes (λ _, m)
             (with_rtl (set_array Dmem (λ _, d))
                (with_rtl (set_array Imem (λ _, im)) tb)))).1
       = (compareState tb).1).
Proof.
  rewrite !compareState_eq. cbn [fst].
  assert (states_agree tb = true
          ↔ cpu_top__DOT__pc (rtl tb) = riscv_get_pc (ref tb)
            ∧ ∀ i, 1 ≤ i ≤ 31 →
                   cpu_top__DOT__regfile__DOT__registers (rtl tb) !!! Z.to_nat i
                   = riscv_get_reg (ref tb) i) as Hiff.
  { rewrite states_agree_true, getRtlPc_read. apply and_iff_compat_l.
    split; intros H i Hi; specialize (H i Hi).
    - by rewrite <- getRtlReg_read.
    - by rewrite getRtlReg_read. }
  split; [exact Hiff|]. split.
  - rewrite Hiff. unfold riscv_get_pc. apply and_iff_compat_l.
    split; intros H i Hi; specialize (H i Hi).
    + by rewrite <- riscv_get_reg_read.
    + by rewrite riscv_get_reg_read.
  - split.
    + intros v v'. rewrite compareState_eq. cbn [fst].
      apply states_agree_ext; try done.
      * intros i Hi. unfold getRtlReg.
        destruct (i =? 0); [done|]. destruct tb as [[] ? ? ? ? ? ? ? ? ?]. cbn.
        apply list_lookup_total_insert_ne. lia.
      * intros i Hi. unfold riscv_get_reg.
        destruct (i =? 0); [done|]. cbn.
        apply list_lookup_total_insert_ne. lia.
    + intros m d im. rewrite compareState_eq. cbn [fst].
      apply states_agree_ext; try done; by destruct tb as [[] ? ? ? ? ? ? ? ? ?].
Qed.

(** ** Register 0 *)

(** C9.  Reading register 0 yields zero on both sides.  [getRtlReg]
    returns 0 for index 0 whatever the hardware register array holds; the
    reference model's [riscv_get_reg] returns 0 for index 0 and
    [riscv_set_reg] leaves the CPU unchanged for index 0; and both reads
    are still zero after any number of comparison rounds, and after any
    number of [riscv_step] calls, for every hardware and reference
    model. *)
Theorem register_zero_reads_zero {Nets} (eval : Vcpu_top Nets → Vcpu_top Nets)
    (riscv_step : RiscvCpu → list Z → RiscvCpu * list Z) :
  (∀ tb : Testbench Nets, getRtlReg tb 0 = 0)
  ∧ (∀ (tb : Testbench Nets) (registers : list Z),
       getRtlReg (with_rtl (set_array Regfile (λ _, registers)) tb) 0 = 0)
  ∧ (∀ cpu, riscv_get_reg cpu 0 = 0)
  ∧ (∀ cpu v, riscv_set_reg cpu 0 v = cpu)
  ∧ (∀ cpu v, riscv_get_reg (riscv_set_reg cpu 0 v) 0 = 0)
  ∧ (∀ (n : nat) (tb : Testbench Nets),
       getRtlReg (after_rounds eval riscv_step n tb) 0 = 0
       ∧ riscv_get_reg (ref (after_rounds eval riscv_step n tb)) 0 = 0)
  ∧ (∀ (n : nat) cpu (m : list Z),
       riscv_get_reg (Nat.iter n (λ s, riscv_step s.1 s.2) (cpu, m)).1 0 = 0).
Proof. repeat split. Qed.

(** ** Loading a program *)

Lemma load_bytes_length (p m : list Z) : length (load_bytes p m) = length m.
Proof. unfold load_bytes. apply (foldl_store_instr_length (λ i, p !!! i)). Qed.

Lemma load_bytes_lookup (p m : list Z) (j : nat) :
  (4096 ≤ length m)%nat →
  load_bytes p m !! j
  = if bool_decide (j < 4 * (length p `min` 1024))%nat
    then Some (byte_of (j mod 4)%nat (p !!! (j / 4)%nat)) else m !! j.
Proof.
  intros Hlen. unfold load_bytes.
  apply (foldl_store_instr_lookup (λ i, p !!! i)). lia.
Qed.

Lemma load_imem_length (p m : list Z) : length (load_imem p m) = length m.
Proof. unfold load_imem. by rewrite !foldl_insert_length. Qed.

Lemma load_imem_lookup (p m : list Z) (j : nat) :
  (1024 ≤ length m)%nat →
  load_imem p m !! j
  = if bool_decide (j < 1024)%nat
    then Some (if bool_decide (j < length p)%nat then p !!! j else NOP)
    else m !! j.
Proof.
  intros Hlen. unfold load_imem.
  rewrite (foldl_insert_seq_lookup (λ _, NOP)), foldl_insert_length.
  rewrite (foldl_insert_seq_lookup (λ i, p !!! i)).
  repeat case_bool_decide; try done; lia.
Qed.

(** The reference memory beyond the words of the program keeps what it
    held before the load. *)
Lemma loadProgram_bytes_rest {Nets} (p : list Z) (tb : Testbench Nets) (j : nat) :
  (4096 ≤ length (bytes (ref_mem tb)))%nat →
  (4 * length p ≤ j)%nat →
  bytes (ref_mem (loadProgram p tb)) !! j = bytes (ref_mem tb) !! j.
Proof.
  intros Hlen Hj. rewrite loadProgram_bytes, load_bytes_lookup by done.
  rewrite bool_decide_eq_false_2 by lia. done.
Qed.

(** The hardware instruction memory is padded with NOPs up to its 1024
    words. *)
Lemma loadProgram_imem_padded {Nets} (p : list Z) (tb : Testbench Nets) (j : nat) :
  (1024 ≤ length (cpu_top__DOT__imem__DOT__mem (rtl tb)))%nat →
  (length p ≤ j < 1024)%nat →
  cpu_top__DOT__imem__DOT__mem (rtl (loadProgram p tb)) !! j = Some NOP.
Proof.
  intros Hlen Hj. rewrite loadProgram_imem, load_imem_lookup by done.
  rewrite bool_decide_eq_true_2, bool_decide_eq_false_2 by lia. done.
Qed.

(** C1.  The reference memory is not padded.  The tests of [main] load a
    program of six words and then one of four words: after the second
    load, word 4 of the reference memory still holds [xor x5, x1, x2]
    of the first program, while word 4 of the hardware instruction memory
    holds the NOP.  The same is observed when the two programs are run as
    tests, one after the other, on the counting hardware model and the
    reference model that never stores. *)
Theorem loadProgram_leaves_stale_words :
  (let tb := loadProgram test_imm (loadProgram test_logic zero_tb) in
   word_at (bytes (ref_mem tb)) 4 = Some 0x0020C2B3
   ∧ word_at (bytes (ref_mem tb)) 4 ≠ Some NOP
   ∧ cpu_top__DOT__imem__DOT__mem (rtl tb) !! 4%nat = Some NOP)
  ∧ (let tb := runTest count_eval nop_step "Immediate Ops" test_imm 4
                 (runTest count_eval nop_step "Logical Ops" test_logic 6 zero_tb) in
     word_at (bytes (ref_mem tb)) 4 = Some 0x0020C2B3
     ∧ cpu_top__DOT__imem__DOT__mem (rtl tb) !! 4%nat = Some NOP)
  ∧ (length test_imm ≤ 4 < 1024)%nat.
Proof. vm_compute. repeat split; (done || lia). Qed.

(** C7.  A program of more than 1024 words is cut at the capacity.  The
    first 1024 words, and no others, are written to the hardware
    instruction memory and, little-endian, to the first 4096 bytes of the
    reference memory; whatever lies at index 1024 and beyond, or at byte
    4096 and beyond, is left as it was; the hardware writes are exactly
    the 1024 writes at indices 0 to 1023; nothing is printed and no
    counter changes. *)
Theorem loadProgram_truncates {Nets} (program : list Z) (tb : Testbench Nets) :
  (1024 < length program)%nat →
  (1024 ≤ length (cpu_top__DOT__imem__DOT__mem (rtl tb)))%nat →
  (4096 ≤ length (bytes (ref_mem tb)))%nat →
  let tb' := loadProgram program tb in
  let imem := cpu_top__DOT__imem__DOT__mem (rtl tb) in
  let imem' := cpu_top__DOT__imem__DOT__mem (rtl tb') in
  let m := bytes (ref_mem tb) in
  let m' := bytes (ref_mem tb') in
  (∀ i, (i < 1024)%nat → imem' !! i = program !! i)
  ∧ (∀ i, (1024 ≤ i)%nat → imem' !! i = imem !! i)
  ∧ length imem' = length imem
  ∧ (∀ i k, (i < 1024)%nat → (k < 4)%nat →
       m' !! (4 * i + k)%nat = byte_of k <$> program !! i)
  ∧ (∀ j, (4096 ≤ j)%nat → m' !! j = m !! j)
  ∧ length m' = length m
  ∧ history tb' = history tb ++ ((λ i, OpPoke Imem i (program !!! i)) <$> seq 0 1024)
  ∧ output tb' = output tb
  ∧ tests_passed tb' = tests_passed tb
  ∧ tests_failed tb' = tests_failed tb.
Proof.
  intros Hp Himem Hm. cbn zeta.
  rewrite loadProgram_imem, loadProgram_bytes, loadProgram_history.
  repeat split.
  - intros i Hi. rewrite load_imem_lookup by done.
    rewrite !bool_decide_eq_true_2 by lia.
    symmetry. apply list_lookup_lookup_total_lt. lia.
  - intros i Hi. rewrite load_imem_lookup by done.
    by rewrite bool_decide_eq_false_2 by lia.
  - apply load_imem_length.
  - intros i k Hi Hk. rewrite load_bytes_lookup by done.
    rewrite bool_decide_eq_true_2 by lia.
    replace ((4 * i + k) mod 4)%nat with k
      by (rewrite Nat.add_comm, Nat.mul_comm, Nat.Div0.mod_add;
          symmetry; by apply Nat.mod_small).
    replace ((4 * i + k) / 4)%nat with i
      by (rewrite Nat.add_comm, Nat.mul_comm, Nat.div_add by lia;
          rewrite Nat.div_small by lia; lia).
    rewrite (list_lookup_lookup_total_lt program i) by lia. done.
  - intros j Hj. rewrite load_bytes_lookup by done.
    by rewrite bool_decide_eq_false_2 by lia.
  - apply load_bytes_length.
  - unfold load_ops. replace (1024 - length program)%nat with 0%nat by lia.
    replace (length program `min` 1024)%nat with 1024%nat by lia.
    cbn [seq fmap list_fmap]. by rewrite app_nil_r.
  - apply (@loadProgram_output Nets).
  - apply (@loadProgram_tests_passed Nets).
  - apply (@loadProgram_tests_failed Nets).
Qed.

(** C8.  A program word at a word index within the capacity is stored
    little-endian in the reference memory: its bits 0 to 7 at byte
    [4 * i], bits 8 to 15 at [4 * i + 1], bits 16 to 23 at [4 * i + 2]
    and bits 24 to 31 at [4 * i + 3]. *)
Theorem loadProgram_little_endian {Nets} (program : list Z) (tb : Testbench Nets)
    (i : nat) (w : Z) :
  program !! i = Some w →
  (i < 1024)%nat →
  (4096 ≤ length (bytes (ref_mem tb)))%nat →
  let m' := bytes (ref_mem (loadProgram program tb)) in
  m' !! (4 * i)%nat = Some (Z.land (Z.shiftr w 0) 0xFF)
  ∧ m' !! (4 * i + 1)%nat = Some (Z.land (Z.shiftr w 8) 0xFF)
  ∧ m' !! (4 * i + 2)%nat = Some (Z.land (Z.shiftr w 16) 0xFF)
  ∧ m' !! (4 * i + 3)%nat = Some (Z.land (Z.shiftr w 24) 0xFF).
Proof.
  intros Hw Hi Hm. cbn zeta. rewrite loadProgram_bytes.
  pose proof (lookup_lt_Some _ _ _ Hw) as Hlt.
  assert (∀ k, (k < 4)%nat →
            load_bytes program (bytes (ref_mem tb)) !! (4 * i + k)%nat
            = Some (byte_of k w)) as Hk.
  { intros k Hk. rewrite load_bytes_lookup by done.
    rewrite bool_decide_eq_true_2 by lia.
    replace ((4 * i + k) mod 4)%nat with k
      by (rewrite Nat.add_comm, Nat.mul_comm, Nat.Div0.mod_add;
          symmetry; by apply Nat.mod_small).
    replace ((4 * i + k) / 4)%nat with i
      by (rewrite Nat.add_comm, Nat.mul_comm, Nat.div_add by lia;
          rewrite Nat.div_small by lia; lia).
    by rewrite (list_lookup_total_correct _ _ _ Hw). }
  repeat split.
  - rewrite <- (Nat.add_0_r (4 * i)). by rewrite (Hk 0%nat) by lia.
  - by rewrite (Hk 1%nat) by lia.
  - by rewrite (Hk 2%nat) by lia.
  - by rewrite (Hk 3%nat) by lia.
Qed.

(** ** The lockstep driver *)

Section Lockstep.

Context {Nets : Type}.
Variable eval : Vcpu_top Nets → Vcpu_top Nets.
Variable riscv_step : RiscvCpu → list Z → RiscvCpu * list Z.
Implicit Types tb : Testbench Nets.

Lemma cycle_shape (r : Vcpu_top Nets) :
  (∀ r, rtl_shape r → rtl_shape (eval r)) →
  rtl_shape r → rtl_shape (cycle eval r).
Proof. intros Heval Hr. unfold cycle. apply Heval, Heval. by destruct r. Qed.

Lemma cycles_shape (n : nat) (r : Vcpu_top Nets) :
  (∀ r, rtl_shape r → rtl_shape (eval r)) →
  rtl_shape r → rtl_shape (Nat.iter n (cycle eval) r).
Proof.
  intros Heval Hr. induction n as [|n IH]; [done|].
  cbn [Nat.iter]. by apply cycle_shape.
Qed.

Lemma clear_list (n : nat) (m : list Z) :
  length m = n → foldl (λ m i, <[i:=0]> m) m (seq 0 n) = replicate n 0.
Proof.
  intros Hn. apply list_eq. intros j.
  rewrite (foldl_insert_seq_lookup (λ _, 0)).
  case_bool_decide as Hj.
  - symmetry. apply lookup_replicate_2. lia.
  - rewrite lookup_ge_None_2 by lia. symmetry. apply lookup_replicate_None. lia.
Qed.

Lemma reset_rtl_registers (r : Vcpu_top Nets) :
  cpu_top__DOT__regfile__DOT__registers (reset_rtl eval r)
  = foldl (λ m i, <[i:=0]> m)
      (cpu_top__DOT__regfile__DOT__registers (Nat.iter 5 (cycle eval) (set_rst 1 r)))
      (seq 0 32).
Proof. reflexivity. Qed.

Lemma reset_rtl_dmem (r : Vcpu_top Nets) :
  cpu_top__DOT__dmem__DOT__mem (reset_rtl eval r)
  = foldl (λ m i, <[i:=0]> m)
      (cpu_top__DOT__dmem__DOT__mem (Nat.iter 5 (cycle eval) (set_rst 1 r)))
      (seq 0 1024).
Proof. reflexivity. Qed.

Lemma reset_rtl_rst (r : Vcpu_top Nets) : rst (reset_rtl eval r) = 0.
Proof. reflexivity. Qed.


(** *** A whole test *)

Lemma runTest_loop_tests_passed (n : nat) :
  ∀ (i : Z) tb,
    tests_passed (runTest_loop eval riscv_step n i tb).2 = tests_passed tb.
Proof.
  induction n as [|n IH]; intros i tb; [done|].
  rewrite runTest_loop_S. destruct (round eval riscv_step tb).1 eqn:Hm.
  - by rewrite IH, round_tests_passed.
  - cbn [snd]. by autorewrite with fields.
Qed.

Lemma runTest_loop_tests_failed (n : nat) :
  ∀ (i : Z) tb,
    tests_failed (runTest_loop eval riscv_step n i tb).2 = tests_failed tb.
Proof.
  induction n as [|n IH]; intros i tb; [done|].
  rewrite runTest_loop_S. destruct (round eval riscv_step tb).1 eqn:Hm.
  - by rewrite IH, round_tests_failed.
  - cbn [snd]. by autorewrite with fields.
Qed.

Lemma test_start_tests_passed (name : string) (p : list Z) tb :
  tests_passed (test_start eval name p tb) = tests_passed tb.
Proof. unfold test_start. by autorewrite with fields. Qed.

Lemma test_start_tests_failed (name : string) (p : list Z) tb :
  tests_failed (test_start eval name p tb) = tests_failed tb.
Proof. unfold test_start. by autorewrite with fields. Qed.

Lemma test_start_cycles_run (name : string) (p : list Z) tb :
  cycles_run (test_start eval name p tb) = cycles_run tb + 5.
Proof. unfold test_start. by autorewrite with fields. Qed.

Lemma test_start_output (name : string) (p : list Z) tb :
  output (test_start eval name p tb) = output tb ++ [(Cout, RunningTest name)].
Proof. unfold test_start. by autorewrite with fields. Qed.

Lemma test_start_history (name : string) (p : list Z) tb :
  history (test_start eval name p tb) = history tb ++ load_ops p ++ reset_ops.
Proof. unfold test_start. autorewrite with fields. by rewrite <- app_assoc. Qed.

Hint Rewrite test_start_tests_passed test_start_tests_failed
  test_start_cycles_run test_start_output test_start_history : fields.

(** [runTest] in terms of its comparison loop. *)
Lemma runTest_eq (name : string) (p : list Z) (cycles : Z) tb :
  runTest eval riscv_step name p cycles tb
  = let r := runTest_loop eval riscv_step (Z.to_nat cycles) 0
               (test_start eval name p tb) in
    printState
      (if r.1
       then with_counters (tests_passed r.2 + 1) (tests_failed r.2) (cycles_run r.2)
              (print Cout (Pass name) r.2)
       else with_counters (tests_passed r.2) (tests_failed r.2 + 1) (cycles_run r.2)
              (print Cout (Fail name) r.2)).
Proof.
  unfold runTest, test_start. cbv zeta.
  by destruct (runTest_loop _ _ _ _ _) as [[] ?].
Qed.

(** A test in which every round matches. *)
Lemma runTest_pass (name : string) (p : list Z) (cycles : Z) tb :
  (∀ j, (j < Z.to_nat cycles)%nat →
        round_matches eval riscv_step j (test_start eval name p tb) = true) →
  runTest eval riscv_step name p cycles tb
  = printState
      (with_counters (tests_passed tb + 1) (tests_failed tb)
         (cycles_run tb + 5 + Z.of_nat (Z.to_nat cycles))
         (print Cout (Pass name)
            (after_rounds eval riscv_step (Z.to_nat cycles)
               (test_start eval name p tb)))).
Proof.
  intros Hall. rewrite runTest_eq. cbv zeta.
  rewrite runTest_loop_all_match by done. cbn [fst snd].
  by autorewrite with fields.
Qed.

(** A test whose first mismatch is in the round of index [k]. *)
Lemma runTest_fail (name : string) (p : list Z) (cycles : Z) tb (k : nat) :
  (k < Z.to_nat cycles)%nat →
  (∀ j, (j < k)%nat →
        round_matches eval riscv_step j (test_start eval name p tb) = true) →
  round_matches eval riscv_step k (test_start eval name p tb) = false →
  runTest eval riscv_step name p cycles tb
  = printState
      (with_counters (tests_passed tb) (tests_failed tb + 1)
         (cycles_run tb + 5 + Z.of_nat (S k))
         (print Cout (Fail name)
            (printState
               (print Cerr (MismatchAtCycle (Z.of_nat k))
                  (after_rounds eval riscv_step (S k)
                     (test_start eval name p tb)))))).
Proof.
  intros Hk Hall Hbad. rewrite runTest_eq. cbv zeta.
  rewrite (runTest_loop_mismatch eval riscv_step k) by done.
  cbn [fst snd]. rewrite Z.add_0_l.
  set (s := after_rounds _ _ _ _).
  set (x := printState (print Cerr _ s)).
  assert (tests_passed x = tests_passed tb) as ->
    by (subst x s; by autorewrite with fields).
  assert (tests_failed x = tests_failed tb) as ->
    by (subst x s; by autorewrite with fields).
  assert (cycles_run x = cycles_run tb + 5 + Z.of_nat (S k)) as ->
    by (subst x s; by autorewrite with fields).
  reflexivity.
Qed.

End Lockstep.

Hint Rewrite @test_start_tests_passed @test_start_tests_failed
  @test_start_cycles_run @test_start_output @test_start_history : fields.

(** ** Counting actions *)

Lemma steps_in_app (h1 h2 : list Op) :
  steps_in (h1 ++ h2) = (steps_in h1 + steps_in h2)%nat.
Proof. apply count_occ_app. Qed.

Lemma ticks_in_app (h1 h2 : list Op) :
  ticks_in (h1 ++ h2) = (ticks_in h1 + ticks_in h2)%nat.
Proof. apply count_occ_app. Qed.

Lemma count_occ_pokes (a : Array) (g : nat → Z) (o : Op) (l : list nat) :
  (∀ i v, o ≠ OpPoke a i v) →
  count_occ Op_eq_dec ((λ i, OpPoke a i (g i)) <$> l) o = 0%nat.
Proof.
  intros Ho. induction l as [|i l IH]; [done|].
  cbn [fmap list_fmap]. rewrite count_occ_cons_neq; [done|].
  intros H. by apply (Ho i (g i)).
Qed.

Lemma steps_in_load_ops (p : list Z) : steps_in (load_ops p) = 0%nat.
Proof.
  unfold load_ops. rewrite steps_in_app. unfold steps_in.
  by rewrite !count_occ_pokes.
Qed.

Lemma ticks_in_load_ops (p : list Z) : ticks_in (load_ops p) = 0%nat.
Proof.
  unfold load_ops. rewrite ticks_in_app. unfold ticks_in.
  by rewrite !count_occ_pokes.
Qed.

Lemma steps_in_reset_ops : steps_in reset_ops = 0%nat.
Proof. by vm_compute. Qed.

Lemma ticks_in_reset_ops : ticks_in reset_ops = 5%nat.
Proof. by vm_compute. Qed.

Lemma steps_in_rounds (k : nat) : steps_in (concat (replicate k round_ops)) = k.
Proof.
  induction k as [|k IH]; [done|].
  cbn [replicate concat]. rewrite steps_in_app, IH. done.
Qed.

Lemma ticks_in_rounds (k : nat) : ticks_in (concat (replicate k round_ops)) = k.
Proof.
  induction k as [|k IH]; [done|].
  cbn [replicate concat]. rewrite ticks_in_app, IH. done.
Qed.

(** ** Running tests *)

Section Tests.

Context {Nets : Type}.
Variable eval : Vcpu_top Nets → Vcpu_top Nets.
Variable riscv_step : RiscvCpu → list Z → RiscvCpu * list Z.
Implicit Types tb : Testbench Nets.

Lemma round_output tb :
  output (round eval riscv_step tb).2
  = output tb ++ mismatch_lines (stepAndCompare eval riscv_step tb).
Proof.
  unfold round. rewrite compareState_eq. cbn [snd]. by autorewrite with fields.
Qed.

(** The state dump only reads the two models. *)
Lemma state_dump_print (s : Stream) (l : Line) tb :
  state_dump (print s l tb) = state_dump tb.
Proof. reflexivity. Qed.

Lemma state_dump_with_output (o : list (Stream * Line)) tb :
  state_dump (with_output o tb) = state_dump tb.
Proof. reflexivity. Qed.

Lemma state_dump_with_counters (a b c : Z) tb :
  state_dump (with_counters a b c tb) = state_dump tb.
Proof. reflexivity. Qed.

(** The rounds a test runs, and what they add to the history and to the
    cycle counter. *)
Lemma runTest_run (name : string) (p : list Z) (cycles : Z) tb :
  ∃ k : nat,
    (k ≤ Z.to_nat cycles)%nat
    ∧ history (runTest eval riscv_step name p cycles tb)
      = history tb ++ load_ops p ++ reset_ops ++ concat (replicate k round_ops)
    ∧ cycles_run (runTest eval riscv_step name p cycles tb)
      = cycles_run tb + 5 + Z.of_nat k.
Proof.
  destruct (first_mismatch eval riscv_step (Z.to_nat cycles)
              (test_start eval name p tb)) as [Hall|(k & Hk & Hall & Hbad)].
  - exists (Z.to_nat cycles). rewrite runTest_pass by done.
    autorewrite with fields. rewrite <- !app_assoc. done.
  - exists (S k). rewrite (runTest_fail eval riscv_step name p cycles tb k) by done.
    autorewrite with fields. rewrite <- !app_assoc. split; [lia|done].
Qed.

Lemma runTest_tests_failed (name : string) (p : list Z) (cycles : Z) tb :
  tests_failed (runTest eval riscv_step name p cycles tb)
  = tests_failed tb + (if test_fails eval riscv_step name p cycles tb then 1 else 0).
Proof.
  rewrite runTest_eq. cbv zeta. unfold test_fails.
  destruct (runTest_loop _ _ _ _ _).1 eqn:Hm; cbn [negb];
    autorewrite with fields;
    rewrite runTest_loop_tests_failed, test_start_tests_failed; lia.
Qed.

Lemma runTest_tests_passed (name : string) (p : list Z) (cycles : Z) tb :
  tests_passed (runTest eval riscv_step name p cycles tb)
  = tests_passed tb + (if test_fails eval riscv_step name p cycles tb then 0 else 1).
Proof.
  rewrite runTest_eq. cbv zeta. unfold test_fails.
  destruct (runTest_loop _ _ _ _ _).1 eqn:Hm; cbn [negb];
    autorewrite with fields;
    rewrite runTest_loop_tests_passed, test_start_tests_passed; lia.
Qed.

(** C3.  A test stops at its first mismatch.  If the round of zero-based
    index [k] is the first one whose comparison fails, the test ends in
    the state reached after exactly [k + 1] rounds: it has called
    [riscv_step] [k + 1] times, it has printed, after the mismatch lines
    of that round, the line "Mismatch at cycle k" followed by a state
    dump, and it has incremented the failed counter and not the passed
    counter.  If all the rounds of the budget match, it has run them all
    and incremented the passed counter and not the failed counter.  In
    every case exactly one of the two counters is incremented, by one. *)
Theorem runTest_fail_fast (name : string) (program : list Z) (cycles : Z) tb :
  let t0 := test_start eval name program tb in
  let tb' := runTest eval riscv_step name program cycles tb in
  (∀ k : nat,
     (k < Z.to_nat cycles)%nat →
     (∀ j, (j < k)%nat → round_matches eval riscv_step j t0 = true) →
     round_matches eval riscv_step k t0 = false →
     let s := after_rounds eval riscv_step (S k) t0 in
     rtl tb' = rtl s ∧ ref tb' = ref s ∧ ref_mem tb' = ref_mem s
     ∧ steps_in (history tb') = (steps_in (history tb) + S k)%nat
     ∧ output tb'
       = output tb ++ [(Cout, RunningTest name)]
         ++ mismatch_lines
              (stepAndCompare eval riscv_step (after_rounds eval riscv_step k t0))
         ++ [(Cerr, MismatchAtCycle (Z.of_nat k))] ++ state_dump s
         ++ [(Cout, Fail name)] ++ state_dump s
     ∧ tests_failed tb' = tests_failed tb + 1
     ∧ tests_passed tb' = tests_passed tb)
  ∧ ((∀ j, (j < Z.to_nat cycles)%nat → round_matches eval riscv_step j t0 = true) →
     steps_in (history tb') = (steps_in (history tb) + Z.to_nat cycles)%nat
     ∧ tests_passed tb' = tests_passed tb + 1
     ∧ tests_failed tb' = tests_failed tb)
  ∧ ((tests_passed tb' = tests_passed tb + 1 ∧ tests_failed tb' = tests_failed tb)
     ∨ (tests_passed tb' = tests_passed tb ∧ tests_failed tb' = tests_failed tb + 1)).
Proof.
  cbv zeta. split; [|split].
  - intros k Hk Hall Hbad.
    rewrite (runTest_fail eval riscv_step name program cycles tb k) by done.
    autorewrite with fields.
    rewrite !steps_in_app, steps_in_load_ops, steps_in_reset_ops, steps_in_rounds.
    repeat split; try done; try lia.
    change (after_rounds eval riscv_step (S k) (test_start eval name program tb))
      with (round eval riscv_step
              (after_rounds eval riscv_step k (test_start eval name program tb))).2.
    rewrite round_output, after_rounds_output, test_start_output by done.
    rewrite state_dump_with_counters, !state_dump_print, state_dump_with_output.
    rewrite state_dump_print. by rewrite <- !app_assoc.
  - intros Hall. rewrite runTest_pass by done. autorewrite with fields.
    rewrite !steps_in_app, steps_in_load_ops, steps_in_reset_ops, steps_in_rounds.
    repeat split; lia.
  - rewrite runTest_tests_passed, runTest_tests_failed.
    destruct (test_fails _ _ _ _ _ _); [right|left]; lia.
Qed.

(** C5.  Every comparison round of [runTest] performs its operations in
    one fixed order: clock high, evaluation, clock low, evaluation, then
    one [riscv_step], then the comparison.  The history of a test is the
    history before it, the writes of [loadProgram], the actions of
    [reset], and then a whole number of such rounds, at most the cycle
    budget; and the comparison of a round reads the state in which the
    hardware has completed both evaluations and the reference model its
    step. *)
Theorem runTest_round_order (name : string) (program : list Z) (cycles : Z) tb :
  (∃ k : nat,
     (k ≤ Z.to_nat cycles)%nat
     ∧ history (runTest eval riscv_step name program cycles tb)
       = history tb ++ load_ops program ++ reset_ops
         ++ concat (replicate k
                      [OpClk 1; OpEval; OpClk 0; OpEval; OpRiscvStep; OpCompare]))
  ∧ (∀ t : Testbench Nets,
       history (round eval riscv_step t).2
       = history t ++ [OpClk 1; OpEval; OpClk 0; OpEval; OpRiscvStep; OpCompare]
       ∧ (round eval riscv_step t).1
         = states_agree (stepAndCompare eval riscv_step t)
       ∧ rtl (stepAndCompare eval riscv_step t)
         = eval (set_clk 0 (eval (set_clk 1 (rtl t))))
       ∧ ref (stepAndCompare eval riscv_step t)
         = (riscv_step (ref t) (bytes (ref_mem t))).1).
Proof.
  split.
  - destruct (runTest_run name program cycles tb) as (k & Hk & Hh & _).
    exists k. by split.
  - intros t. rewrite round_history, round_verdict.
    rewrite stepAndCompare_rtl, stepAndCompare_ref. done.
Qed.

(** C10.  [cycles_run] counts reset ticks as well as comparison rounds.
    Every [tick] adds exactly one to it, [reset] adds five, and a call of
    [runTest] adds five plus the number of comparison rounds it ran,
    which is the number of [riscv_step] calls it made; in all, it adds
    the number of ticks the test performed. *)
Theorem cycles_run_counts_ticks (name : string) (program : list Z) (cycles : Z) tb :
  (∀ t : Testbench Nets, cycles_run (tick eval t) = cycles_run t + 1)
  ∧ (∀ t : Testbench Nets, cycles_run (reset eval t) = cycles_run t + 5)
  ∧ (∀ t : Testbench Nets,
       cycles_run (stepAndCompare eval riscv_step t) = cycles_run t + 1)
  ∧ let tb' := runTest eval riscv_step name program cycles tb in
    cycles_run tb'
    = cycles_run tb + 5
      + Z.of_nat (steps_in (history tb') - steps_in (history tb))
    ∧ cycles_run tb'
      = cycles_run tb + Z.of_nat (ticks_in (history tb') - ticks_in (history tb))
    ∧ (steps_in (history tb') - steps_in (history tb) ≤ Z.to_nat cycles)%nat.
Proof.
  split; [apply tick_cycles_run|]. split; [apply reset_cycles_run|].
  split; [apply stepAndCompare_cycles_run|]. cbv zeta.
  destruct (runTest_run name program cycles tb) as (k & Hk & -> & ->).
  rewrite !steps_in_app, steps_in_load_ops, steps_in_reset_ops, steps_in_rounds.
  rewrite !ticks_in_app, ticks_in_load_ops, ticks_in_reset_ops, ticks_in_rounds.
  repeat split; lia.
Qed.

End Tests.

(** ** The whole run *)

Section Main.

Context {Nets : Type}.
Variable eval : Vcpu_top Nets → Vcpu_top Nets.
Variable riscv_step : RiscvCpu → list Z → RiscvCpu * list Z.
Implicit Types tb : Testbench Nets.

Lemma run_tests_cons (name : string) (p : list Z) (cycles : Z)
    (tests : list (string * list Z * Z)) tb :
  run_tests eval riscv_step ((name, p, cycles) :: tests) tb
  = run_tests eval riscv_step tests (runTest eval riscv_step name p cycles tb).
Proof. reflexivity. Qed.

Lemma run_tests_tests_failed (tests : list (string * list Z * Z)) :
  ∀ tb, tests_failed (run_tests eval riscv_step tests tb)
        = tests_failed tb + Z.of_nat (count_failures eval riscv_step tests tb).
Proof.
  induction tests as [|[[name p] cycles] tests IH]; intros tb.
  - cbn. lia.
  - rewrite run_tests_cons, IH, runTest_tests_failed. cbn [count_failures].
    destruct (test_fails _ _ _ _ _ _); lia.
Qed.

Lemma main_start_tests_failed (rtl0 : Vcpu_top Nets) (a : Z) :
  tests_failed (main_start rtl0 a) = 0.
Proof. reflexivity. Qed.

(** [main] runs its five tests from [main_start] and returns 0 exactly
    when the failed counter is then zero. *)
Lemma main_eq (rtl0 : Vcpu_top Nets) (a : Z) :
  let tb := run_tests eval riscv_step main_tests (main_start rtl0 a) in
  (main eval riscv_step rtl0 a).1 = (if tests_failed tb =? 0 then 0 else 1)
  ∧ tests_failed (main eval riscv_step rtl0 a).2 = tests_failed tb.
Proof.
  cbv zeta. unfold main. cbv zeta. fold (main_start rtl0 a).
  change (runTest eval riscv_step "Shifts" test_shift 4 _)
    with (run_tests eval riscv_step main_tests (main_start rtl0 a)).
  autorewrite with fields.
  by destruct (tests_failed (run_tests eval riscv_step main_tests (main_start rtl0 a)) =? 0).
Qed.

(** C6.  The exit status of the process is 0 if the failed-tests counter
    is zero when the run ends, and 1 otherwise; the counter is the number
    of tests that failed, so that the exit status is non-zero exactly
    when at least one test failed. *)
Theorem main_exit_status (rtl0 : Vcpu_top Nets) (a : Z) :
  let r := main eval riscv_step rtl0 a in
  let failed := count_failures eval riscv_step main_tests (main_start rtl0 a) in
  tests_failed r.2 = Z.of_nat failed
  ∧ (r.1 = 0 ↔ tests_failed r.2 = 0)
  ∧ (r.1 = 1 ↔ tests_failed r.2 ≠ 0)
  ∧ (r.1 ≠ 0 ↔ (1 ≤ failed)%nat).
Proof.
  cbv zeta. destruct (main_eq rtl0 a) as [-> ->].
  rewrite run_tests_tests_failed, main_start_tests_failed.
  destruct (Z.eqb_spec (0 + Z.of_nat (count_failures eval riscv_step main_tests
                                        (main_start rtl0 a))) 0);
    repeat split; intros; lia.
Qed.

End Main.

(** ** The theorems at work on the small models *)

Lemma count_eval_shape (r : Vcpu_top unit) : rtl_shape r → rtl_shape (count_eval r).
Proof. unfold count_eval. by destruct (clk r =? 1). Qed.

Lemma zero_tb_shape : rtl_shape (rtl zero_tb).
Proof. vm_compute. done. Qed.

Lemma zero_tb_bytes : (4096 ≤ length (bytes (ref_mem zero_tb)))%nat.
Proof. vm_compute. lia. Qed.

Lemma zero_tb_imem :
  (1024 ≤ length (cpu_top__DOT__imem__DOT__mem (rtl zero_tb)))%nat.
Proof. vm_compute. lia. Qed.


Lemma long_program_length : (1024 < length long_program)%nat.
Proof. unfold long_program. rewrite length_replicate. lia. Qed.

(** Loading the program of 1030 words. *)
Lemma loadProgram_truncates_witness :
  let tb' := loadProgram long_program zero_tb in
  (1024 < length long_program)%nat
  ∧ cpu_top__DOT__imem__DOT__mem (rtl tb') !! 1023%nat = long_program !! 1023%nat
  ∧ length (bytes (ref_mem tb')) = length (bytes (ref_mem zero_tb))
  ∧ output tb' = output zero_tb.
Proof.
  cbv zeta.
  pose proof (loadProgram_truncates long_program zero_tb
                long_program_length zero_tb_imem zero_tb_bytes) as H.
  cbv zeta in H. destruct H as (Himem & _ & _ & _ & _ & Hlen & _ & Hout & _).
  exact (conj long_program_length
           (conj (Himem 1023%nat ltac:(lia)) (conj Hlen Hout))).
Defined.

(** The third word of [test_add], [add x3, x1, x2], in the reference
    memory. *)
Lemma loadProgram_little_endian_witness :
  let m' := bytes (ref_mem (loadProgram test_add zero_tb)) in
  test_add !! 2%nat = Some 0x002081b3
  ∧ m' !! 8%nat = Some 0xb3 ∧ m' !! 9%nat = Some 0x81
  ∧ m' !! 10%nat = Some 0x20 ∧ m' !! 11%nat = Some 0x00.
Proof.
  cbv zeta.
  pose proof (loadProgram_little_endian test_add zero_tb 2 0x002081b3
                eq_refl ltac:(lia) zero_tb_bytes) as H.
  cbv zeta in H. destruct H as (H0 & H1 & H2 & H3).
  exact (conj eq_refl (conj H0 (conj H1 (conj H2 H3)))).
Defined.

(** A test whose third round is the first to mismatch: the reference
    model writes [x1] at address 8, the hardware model does not. *)
Lemma runTest_fail_fast_witness :
  let tb' := runTest count_eval odd_step "Simple Add" test_add 4 zero_tb in
  round_matches count_eval odd_step 2
    (test_start count_eval "Simple Add" test_add zero_tb) = false
  ∧ tests_failed tb' = tests_failed zero_tb + 1
  ∧ tests_passed tb' = tests_passed zero_tb
  ∧ steps_in (history tb') = (steps_in (history zero_tb) + 3)%nat.
Proof.
  cbv zeta.
  assert (round_matches count_eval odd_step 2
            (test_start count_eval "Simple Add" test_add zero_tb) = false) as Hbad
    by (vm_compute; reflexivity).
  assert (∀ j, (j < 2)%nat →
               round_matches count_eval odd_step j
                 (test_start count_eval "Simple Add" test_add zero_tb) = true) as Hall.
  { intros [|[|j]] Hj; [vm_compute; reflexivity|vm_compute; reflexivity|lia]. }
  pose proof (runTest_fail_fast count_eval odd_step "Simple Add" test_add 4 zero_tb) as H.
  cbv zeta in H. destruct H as (H & _ & _).
  destruct (H 2%nat ltac:(lia) Hall Hbad) as (_ & _ & _ & Hsteps & _ & Hf & Hp).
  exact (conj Hbad (conj Hf (conj Hp Hsteps))).
Defined.

(** * Further properties *)


Lemma byte_of_mod (k : nat) (w : Z) :
  byte_of k w = (w / 2 ^ (8 * Z.of_nat k)) mod 2 ^ 8.
Proof.
  unfold byte_of. change 0xFF with (Z.ones 8).
  rewrite Z.land_ones, Z.shiftr_div_pow2 by lia. done.
Qed.

Lemma le_bytes_word (w : Z) :
  byte_of 0 w + 2 ^ 8 * byte_of 1 w + 2 ^ 16 * byte_of 2 w + 2 ^ 24 * byte_of 3 w
  = w mod 2 ^ 32.
Proof.
  rewrite !byte_of_mod.
  change (8 * Z.of_nat 0) with 0. change (8 * Z.of_nat 1) with 8.
  change (8 * Z.of_nat 2) with 16. change (8 * Z.of_nat 3) with 24.
  change (2 ^ 0) with 1. change (2 ^ 8) with 256. change (2 ^ 16) with 65536.
  change (2 ^ 24) with 16777216. change (2 ^ 32) with 4294967296.
  rewrite Z.div_1_r. Z.to_euclidean_division_equations. lia.
Qed.

Lemma word_at_load_bytes (p m : list Z) (i : nat) (w : Z) :
  (4096 ≤ length m)%nat → (i < 1024)%nat → p !! i = Some w →
  word_at (load_bytes p m) i = Some (w mod 2 ^ 32).
Proof.
  intros Hm Hi Hw. pose proof (lookup_lt_Some _ _ _ Hw) as Hlt.
  assert (∀ k, (k < 4)%nat →
            load_bytes p m !! (4 * i + k)%nat = Some (byte_of k w)) as Hk.
  { intros k Hk. rewrite load_bytes_lookup by done.
    rewrite bool_decide_eq_true_2 by lia.
    replace ((4 * i + k) mod 4)%nat with k
      by (rewrite Nat.add_comm, Nat.mul_comm, Nat.Div0.mod_add;
          symmetry; by apply Nat.mod_small).
    replace ((4 * i + k) / 4)%nat with i
      by (rewrite Nat.add_comm, Nat.mul_comm, Nat.div_add by lia;
          rewrite Nat.div_small by lia; lia).
    by rewrite (list_lookup_total_correct _ _ _ Hw). }
  unfold word_at. rewrite <- (Nat.add_0_r (4 * i)) at 1.
  rewrite !Hk by lia. cbn [mbind option_bind]. by rewrite le_bytes_word.
Qed.

(** ** The constructor *)

Lemma Testbench_new_bytes {Nets} (rtl0 : Vcpu_top Nets) (a : Z) :
  bytes (ref_mem (Testbench_new rtl0 a)) = concat (replicate 1024 [0x13; 0; 0; 0]).
Proof. vm_compute. reflexivity. Qed.

Lemma nop_words (i : nat) :
  (i < 1024)%nat → word_at (concat (replicate 1024 [0x13; 0; 0; 0])) i = Some NOP.
Proof.
  intros Hi.
  assert (forallb (λ i, bool_decide
                          (word_at (concat (replicate 1024 [0x13; 0; 0; 0])) i = Some NOP))
            (seq 0 1024) = true) as H by (vm_compute; reflexivity).
  rewrite forallb_forall in H.
  eapply bool_decide_eq_true_1, H, in_seq. lia.
Qed.

(** X1.  A freshly constructed testbench holds the hardware model it was
    given, a reference memory of 4096 bytes in which every one of the
    1024 words is the NOP, a reference model in its zero state bound to
    that memory, no trace, and all counters at zero. *)
Theorem Testbench_new_state {Nets} (rtl0 : Vcpu_top Nets) (a : Z) :
  let tb := Testbench_new rtl0 a in
  rtl tb = rtl0
  ∧ length (bytes (ref_mem tb)) = 4096%nat
  ∧ (∀ i, (i < 1024)%nat → word_at (bytes (ref_mem tb)) i = Some NOP)
  ∧ addr (ref_mem tb) = a
  ∧ ref tb = mkRiscvCpu 0 (replicate 32 0) a MEM_SIZE false
  ∧ trace tb = None ∧ sim_time tb = 0
  ∧ tests_passed tb = 0 ∧ tests_failed tb = 0 ∧ cycles_run tb = 0
  ∧ output tb = [].
Proof.
  cbv zeta. rewrite Testbench_new_bytes.
  split; [reflexivity|]. split; [by vm_compute|]. split; [apply nop_words|].
  repeat split.
Qed.

(** ** More on [loadProgram] *)

(** X2.  Loading is a round trip on the reference side: reading back,
    little-endian, the four bytes at a word index below the length of the
    program and below 1024 gives the program word reduced to 32 bits, and
    so the word itself when it is a 32-bit value. *)
Theorem loadProgram_word_round_trip {Nets} (program : list Z) (tb : Testbench Nets)
    (i : nat) (w : Z) :
  (4096 ≤ length (bytes (ref_mem tb)))%nat →
  (i < 1024)%nat →
  program !! i = Some w →
  word_at (bytes (ref_mem (loadProgram program tb))) i = Some (w mod 2 ^ 32)
  ∧ (0 ≤ w < 2 ^ 32 →
     word_at (bytes (ref_mem (loadProgram program tb))) i = Some w).
Proof.
  intros Hm Hi Hw. rewrite loadProgram_bytes.
  rewrite (word_at_load_bytes program _ i w) by done.
  split; [done|]. intros Hr. by rewrite Z.mod_small.
Qed.

Lemma word_at_ext (m m' : list Z) (i : nat) :
  (∀ j, (4 * i ≤ j < 4 * i + 4)%nat → m' !! j = m !! j) →
  word_at m' i = word_at m i.
Proof.
  intros H. unfold word_at. by rewrite !H by lia.
Qed.

(** X3.  On the reference side [loadProgram] writes the words of the
    program and nothing else: every byte from [4 * length program] on
    keeps its value, so that a word of an earlier, longer program is
    still there after a shorter program is loaded. *)
Theorem loadProgram_ref_mem_rest {Nets} (p q : list Z) (tb : Testbench Nets) :
  (4096 ≤ length (bytes (ref_mem tb)))%nat →
  (∀ j, (4 * length q ≤ j)%nat →
        bytes (ref_mem (loadProgram q tb)) !! j = bytes (ref_mem tb) !! j)
  ∧ length (bytes (ref_mem (loadProgram q tb))) = length (bytes (ref_mem tb))
  ∧ (∀ i w, (length q ≤ i < 1024)%nat → p !! i = Some w →
        word_at (bytes (ref_mem (loadProgram q (loadProgram p tb)))) i
        = Some (w mod 2 ^ 32)).
Proof.
  intros Hm. split; [|split].
  - intros j Hj. by apply loadProgram_bytes_rest.
  - rewrite loadProgram_bytes. apply load_bytes_length.
  - intros i w Hi Hw.
    assert (4096 ≤ length (bytes (ref_mem (loadProgram p tb))))%nat as Hm'
      by (rewrite loadProgram_bytes, load_bytes_length; done).
    rewrite (word_at_ext (bytes (ref_mem (loadProgram p tb)))).
    + rewrite loadProgram_bytes. apply word_at_load_bytes; [done|lia|done].
    + intros j Hj. apply loadProgram_bytes_rest; [done|lia].
Qed.

(** X4.  On the hardware side [loadProgram] rewrites all of the first
    1024 words of the instruction memory: the words of the program, then
    NOPs; what the memory held before does not matter, so that of two
    loads in a row only the second one shows. *)
Theorem loadProgram_imem_contents {Nets} (p q : list Z) (tb : Testbench Nets) :
  (1024 ≤ length (cpu_top__DOT__imem__DOT__mem (rtl tb)))%nat →
  let imem := cpu_top__DOT__imem__DOT__mem (rtl tb) in
  let imem' := cpu_top__DOT__imem__DOT__mem (rtl (loadProgram q tb)) in
  (∀ i, (i < length q)%nat → (i < 1024)%nat → imem' !! i = q !! i)
  ∧ (∀ i, (length q ≤ i < 1024)%nat → imem' !! i = Some NOP)
  ∧ (∀ i, (1024 ≤ i)%nat → imem' !! i = imem !! i)
  ∧ length imem' = length imem
  ∧ cpu_top__DOT__imem__DOT__mem (rtl (loadProgram q (loadProgram p tb))) = imem'.
Proof.
  intros Hlen. cbv zeta. rewrite !loadProgram_imem.
  split; [|split; [|split; [|split]]].
  - intros i Hi Hi'. rewrite load_imem_lookup by done.
    rewrite !bool_decide_eq_true_2 by lia.
    symmetry. by apply list_lookup_lookup_total_lt.
  - intros i Hi. rewrite load_imem_lookup by done.
    by rewrite bool_decide_eq_true_2, bool_decide_eq_false_2 by lia.
  - intros i Hi. rewrite load_imem_lookup by done.
    by rewrite bool_decide_eq_false_2 by lia.
  - apply load_imem_length.
  - apply list_eq. intros i.
    rewrite !load_imem_lookup by (rewrite ?load_imem_length; done).
    by case_bool_decide.
Qed.

Lemma nop_filled_load_agrees {Nets} (tb : Testbench Nets) (program : list Z) (i : nat) :
  bytes (ref_mem tb) = concat (replicate 1024 [0x13; 0; 0; 0]) →
  (1024 ≤ length (cpu_top__DOT__imem__DOT__mem (rtl tb)))%nat →
  Forall (λ w, 0 ≤ w < 2 ^ 32) program →
  (i < 1024)%nat →
  word_at (bytes (ref_mem (loadProgram program tb))) i
  = cpu_top__DOT__imem__DOT__mem (rtl (loadProgram program tb)) !! i.
Proof.
  intros Hb Hlen Hp Hi.
  rewrite loadProgram_imem, load_imem_lookup by done.
  rewrite bool_decide_eq_true_2 by done.
  assert (4096 ≤ length (bytes (ref_mem tb)))%nat as Hm
    by (rewrite Hb; vm_compute; lia).
  case_bool_decide as Hi'.
  - destruct (lookup_lt_is_Some_2 program i Hi') as [w Hw].
    rewrite loadProgram_bytes, (word_at_load_bytes program _ i w) by done.
    rewrite (list_lookup_total_correct _ _ _ Hw).
    rewrite Z.mod_small; [done|].
    by apply (Forall_lookup_1 _ _ _ _ Hp Hw).
  - rewrite (word_at_ext (bytes (ref_mem tb))).
    + rewrite Hb. by apply nop_words.
    + intros j Hj. apply loadProgram_bytes_rest; [done|lia].
Qed.

(** X5.  After the first load into a freshly constructed testbench the
    two memories hold the same 1024 words, whenever the program consists
    of 32-bit values. *)
Theorem first_load_memories_agree {Nets} (rtl0 : Vcpu_top Nets) (a : Z)
    (program : list Z) :
  (1024 ≤ length (cpu_top__DOT__imem__DOT__mem rtl0))%nat →
  Forall (λ w, 0 ≤ w < 2 ^ 32) program →
  let tb := loadProgram program (Testbench_new rtl0 a) in
  ∀ i, (i < 1024)%nat →
       word_at (bytes (ref_mem tb)) i
       = cpu_top__DOT__imem__DOT__mem (rtl tb) !! i.
Proof.
  intros Hlen Hp. cbv zeta. intros i Hi.
  apply nop_filled_load_agrees; [apply Testbench_new_bytes|done..].
Qed.

(** X6.  [loadProgram] touches nothing but the instruction memory and
    the bytes of the reference memory: the ports, the program counter,
    the register file and the data memory of the hardware, the reference
    CPU, the counters, the trace and the output are as before. *)
Theorem loadProgram_frame {Nets} (program : list Z) (tb : Testbench Nets) :
  let tb' := loadProgram program tb in
  clk (rtl tb') = clk (rtl tb) ∧ rst (rtl tb') = rst (rtl tb)
  ∧ cpu_top__DOT__pc (rtl tb') = cpu_top__DOT__pc (rtl tb)
  ∧ cpu_top__DOT__regfile__DOT__registers (rtl tb')
    = cpu_top__DOT__regfile__DOT__registers (rtl tb)
  ∧ cpu_top__DOT__dmem__DOT__mem (rtl tb') = cpu_top__DOT__dmem__DOT__mem (rtl tb)
  ∧ nets (rtl tb') = nets (rtl tb)
  ∧ ref tb' = ref tb ∧ addr (ref_mem tb') = addr (ref_mem tb)
  ∧ trace tb' = trace tb ∧ sim_time tb' = sim_time tb
  ∧ tests_passed tb' = tests_passed tb ∧ tests_failed tb' = tests_failed tb
  ∧ cycles_run tb' = cycles_run tb ∧ output tb' = output tb.
Proof. cbv zeta. rewrite loadProgram_eq. repeat split. Qed.

(** ** The trace fields after an update *)

Section TraceFields.

Context {Nets : Type}.
Implicit Types tb : Testbench Nets.

Lemma trace_with_rtl (f : Vcpu_top Nets → Vcpu_top Nets) tb : trace (with_rtl f tb) = trace tb.
Proof. reflexivity. Qed.
Lemma sim_time_with_rtl (f : Vcpu_top Nets → Vcpu_top Nets) tb : sim_time (with_rtl f tb) = sim_time tb.
Proof. reflexivity. Qed.
Lemma trace_with_ref (cpu : RiscvCpu) tb : trace (with_ref cpu tb) = trace tb.
Proof. reflexivity. Qed.
Lemma sim_time_with_ref (cpu : RiscvCpu) tb : sim_time (with_ref cpu tb) = sim_time tb.
Proof. reflexivity. Qed.
Lemma trace_with_ref_mem_bytes (f : list Z → list Z) tb : trace (with_ref_mem_bytes f tb) = trace tb.
Proof. reflexivity. Qed.
Lemma sim_time_with_ref_mem_bytes (f : list Z → list Z) tb : sim_time (with_ref_mem_bytes f tb) = sim_time tb.
Proof. reflexivity. Qed.
Lemma trace_with_counters (p q c : Z) tb : trace (with_counters p q c tb) = trace tb.
Proof. reflexivity. Qed.
Lemma sim_time_with_counters (p q c : Z) tb : sim_time (with_counters p q c tb) = sim_time tb.
Proof. reflexivity. Qed.
Lemma trace_with_output (o : list (Stream * Line)) tb : trace (with_output o tb) = trace tb.
Proof. reflexivity. Qed.
Lemma sim_time_with_output (o : list (Stream * Line)) tb : sim_time (with_output o tb) = sim_time tb.
Proof. reflexivity. Qed.
Lemma trace_with_history (h : list Op) tb : trace (with_history h tb) = trace tb.
Proof. reflexivity. Qed.
Lemma sim_time_with_history (h : list Op) tb : sim_time (with_history h tb) = sim_time tb.
Proof. reflexivity. Qed.
Lemma trace_print (s : Stream) (l : Line) tb : trace (print s l tb) = trace tb.
Proof. reflexivity. Qed.
Lemma sim_time_print (s : Stream) (l : Line) tb : sim_time (print s l tb) = sim_time tb.
Proof. reflexivity. Qed.
Lemma trace_record (o : Op) tb : trace (record o tb) = trace tb.
Proof. reflexivity. Qed.
Lemma sim_time_record (o : Op) tb : sim_time (record o tb) = sim_time tb.
Proof. reflexivity. Qed.

End TraceFields.

Hint Rewrite
  @trace_with_rtl
  @sim_time_with_rtl
  @trace_with_ref
  @sim_time_with_ref
  @trace_with_ref_mem_bytes
  @sim_time_with_ref_mem_bytes
  @trace_with_counters
  @sim_time_with_counters
  @trace_with_output
  @sim_time_with_output
  @trace_with_history
  @sim_time_with_history
  @trace_print
  @sim_time_print
  @trace_record
  @sim_time_record
  : fields.

(** ** The waveform *)

Section Waveform.

Context {Nets : Type}.
Variable eval : Vcpu_top Nets → Vcpu_top Nets.
Variable riscv_step : RiscvCpu → list Z → RiscvCpu * list Z.
Implicit Types tb : Testbench Nets.

Lemma trace_trace_dump tb :
  trace (trace_dump tb)
  = match trace tb with
    | Some v => Some (mkVerilatedVcdC (filename v) (samples v ++ [(sim_time tb, rtl tb)]))
    | None => None
    end.
Proof. unfold trace_dump. by destruct (trace tb) eqn:Ht. Qed.

Lemma sim_time_trace_dump tb :
  sim_time (trace_dump tb)
  = match trace tb with
    | Some _ => u64 (sim_time tb + 1)
    | None => sim_time tb
    end.
Proof. unfold trace_dump. by destruct (trace tb). Qed.

Lemma u64_succ_succ (t : Z) : u64 (u64 (t + 1) + 1) = u64 (t + 2).
Proof. unfold u64. rewrite Zplus_mod_idemp_l. f_equal. lia. Qed.

Lemma tick_trace_eq tb :
  trace (tick eval tb)
  = match trace tb with
    | None => None
    | Some v =>
        Some (mkVerilatedVcdC (filename v)
                (samples v
                 ++ [(sim_time tb, eval (set_clk 1 (rtl tb)));
                     (u64 (sim_time tb + 1),
                      eval (set_clk 0 (eval (set_clk 1 (rtl tb)))))]))
    end.
Proof.
  unfold tick, rtl_eval.
  repeat (progress (autorewrite with fields;
                    rewrite ?trace_trace_dump, ?sim_time_trace_dump, ?trace_dump_rtl)).
  destruct (trace tb) as [v|]; [|done].
  cbn [filename samples]. by rewrite <- app_assoc.
Qed.

Lemma tick_sim_time tb :
  sim_time (tick eval tb)
  = match trace tb with
    | None => sim_time tb
    | Some _ => u64 (sim_time tb + 2)
    end.
Proof.
  unfold tick, rtl_eval.
  repeat (progress (autorewrite with fields;
                    rewrite ?trace_trace_dump, ?sim_time_trace_dump, ?trace_dump_rtl)).
  destruct (trace tb) as [v|]; [|done]. apply u64_succ_succ.
Qed.

(** X7.  With no trace open a tick leaves the trace and the simulation
    time alone.  With a trace open it dumps exactly two samples: the
    hardware state after the evaluation at the rising edge, stamped with
    the simulation time, and the state after the evaluation at the
    falling edge, stamped with the next time; the simulation time
    advances by two, modulo 2^64. *)
Theorem tick_trace tb :
  match trace tb with
  | None => trace (tick eval tb) = None ∧ sim_time (tick eval tb) = sim_time tb
  | Some v =>
      trace (tick eval tb)
      = Some (mkVerilatedVcdC (filename v)
                (samples v
                 ++ [(sim_time tb, eval (set_clk 1 (rtl tb)));
                     (u64 (sim_time tb + 1),
                      eval (set_clk 0 (eval (set_clk 1 (rtl tb)))))]))
      ∧ sim_time (tick eval tb) = u64 (sim_time tb + 2)
  end.
Proof.
  rewrite tick_trace_eq, tick_sim_time. by destruct (trace tb).
Qed.

End Waveform.

(** ** What the comparator and the state dump print *)

Section Reports.

Context {Nets : Type}.
Implicit Types tb : Testbench Nets.

Lemma elem_of_reg_mismatch_lines tb (l : list Z) (x : Stream * Line) :
  x ∈ reg_mismatch_lines tb l
  ↔ ∃ i, i ∈ l ∧ reg_agrees tb i = false
         ∧ x = (Cerr, RegMismatch i (getRtlReg tb i) (riscv_get_reg (ref tb) i)).
Proof.
  induction l as [|i l IH]; cbn [reg_mismatch_lines flat_map].
  - split; [by intros ?%elem_of_nil|]. by intros (i & ?%elem_of_nil & _).
  - fold (reg_mismatch_lines tb l). rewrite elem_of_app, IH. split.
    + intros [Hx|(j & Hj & Hb & ->)].
      * destruct (reg_agrees tb i) eqn:Hi; [by apply elem_of_nil in Hx|].
        apply list_elem_of_singleton in Hx as ->. exists i. by rewrite elem_of_cons; auto.
      * exists j. rewrite elem_of_cons. auto.
    + intros (j & [->|Hj]%elem_of_cons & Hb & ->).
      * left. rewrite Hb. by apply list_elem_of_singleton.
      * right. eauto.
Qed.

Lemma reg_mismatch_lines_nil tb (l : list Z) :
  reg_mismatch_lines tb l = [] ↔ forallb (reg_agrees tb) l = true.
Proof.
  induction l as [|i l IH]; cbn [reg_mismatch_lines flat_map forallb]; [done|].
  fold (reg_mismatch_lines tb l).
  destruct (reg_agrees tb i); cbn [app andb]; [done|]. split; discriminate.
Qed.

Lemma reg_agrees_false tb (i : Z) :
  reg_agrees tb i = false ↔ getRtlReg tb i ≠ riscv_get_reg (ref tb) i.
Proof. unfold reg_agrees. apply Z.eqb_neq. Qed.

(** The two values of a compared register, read through the accessors or
    from the two register arrays. *)
Lemma compared_values tb (i a b : Z) (P : Prop) :
  1 ≤ i ≤ 31 ∧ a = getRtlReg tb i ∧ b = riscv_get_reg (ref tb) i ∧ P
  ↔ 1 ≤ i ≤ 31
    ∧ a = cpu_top__DOT__regfile__DOT__registers (rtl tb) !!! Z.to_nat i
    ∧ b = regs (ref tb) !!! Z.to_nat i ∧ P.
Proof.
  split; intros (Hi & Ha & Hb & HP);
    pose proof (getRtlReg_read tb i Hi) as E1;
    pose proof (riscv_get_reg_read (ref tb) i Hi) as E2;
    (split; [done|]); (split; [congruence|]); (split; [congruence|done]).
Qed.

(** X8.  [compareState] changes nothing but what has been printed.  It
    prints on [std::cerr] only; it prints nothing exactly when it returns
    true; it prints a PC line exactly when the hardware program counter
    [cpu_top__DOT__pc] and the reference program counter differ, with
    both values, and a line for register [i] exactly when [i] is between
    1 and 31 and entry [i] of the hardware register array
    [cpu_top__DOT__regfile__DOT__registers] differs from register [i] of
    the reference model, with both values. *)
Theorem compareState_report tb :
  let r := compareState tb in
  (rtl r.2 = rtl tb ∧ ref r.2 = ref tb ∧ ref_mem r.2 = ref_mem tb
   ∧ trace r.2 = trace tb ∧ sim_time r.2 = sim_time tb
   ∧ tests_passed r.2 = tests_passed tb ∧ tests_failed r.2 = tests_failed tb
   ∧ cycles_run r.2 = cycles_run tb)
  ∧ output r.2 = output tb ++ mismatch_lines tb
  ∧ (r.1 = true ↔ mismatch_lines tb = [])
  ∧ (∀ x, x ∈ mismatch_lines tb → x.1 = Cerr)
  ∧ (∀ a b, (Cerr, PcMismatch a b) ∈ mismatch_lines tb
            ↔ a = cpu_top__DOT__pc (rtl tb) ∧ b = pc (ref tb) ∧ a ≠ b)
  ∧ (∀ i a b, (Cerr, RegMismatch i a b) ∈ mismatch_lines tb
              ↔ 1 ≤ i ≤ 31
                ∧ a = cpu_top__DOT__regfile__DOT__registers (rtl tb) !!! Z.to_nat i
                ∧ b = regs (ref tb) !!! Z.to_nat i
                ∧ a ≠ b).
Proof.
  cbv zeta. setoid_rewrite <- compared_values.
  change (cpu_top__DOT__pc (rtl tb)) with (getRtlPc tb).
  change (pc (ref tb)) with (riscv_get_pc (ref tb)).
  rewrite compareState_eq. cbn [fst snd].
  split; [by autorewrite with fields|]. split; [by autorewrite with fields|].
  unfold states_agree, mismatch_lines.
  destruct (Z.eqb_spec (getRtlPc tb) (riscv_get_pc (ref tb))) as [Hpc|Hpc];
    cbn [andb app].
  - split; [symmetry; apply reg_mismatch_lines_nil|]. split; [|split].
    + intros x (i & _ & _ & ->)%elem_of_reg_mismatch_lines. done.
    + intros a b. rewrite elem_of_reg_mismatch_lines. split.
      * intros (i & _ & _ & [=]).
      * intros (-> & -> & Hne). done.
    + intros i a b. rewrite elem_of_reg_mismatch_lines. split.
      * intros (j & Hj%reg_indices & Hb%reg_agrees_false & [= -> -> ->]). done.
      * intros (Hi & -> & -> & Hne). exists i.
        by rewrite reg_indices, reg_agrees_false.
  - split; [split; discriminate|]. split; [|split].
    + intros x [->|(i & _ & _ & ->)%elem_of_reg_mismatch_lines]%elem_of_cons; done.
    + intros a b. rewrite elem_of_cons, elem_of_reg_mismatch_lines. split.
      * intros [[= -> ->]|(i & _ & _ & [=])]. done.
      * intros (-> & -> & _). by left.
    + intros i a b. rewrite elem_of_cons, elem_of_reg_mismatch_lines. split.
      * intros [[=]|(j & Hj%reg_indices & Hb%reg_agrees_false & [= -> -> ->])]. done.
      * intros (Hi & -> & -> & Hne). right. exists i.
        by rewrite reg_indices, reg_agrees_false.
Qed.

Lemma elem_of_reg_dump_lines tb (l : list Z) (x : Stream * Line) :
  x ∈ reg_dump_lines tb l
  ↔ ∃ i, i ∈ l
         ∧ (getRtlReg tb i ≠ 0 ∨ riscv_get_reg (ref tb) i ≠ 0)
         ∧ x = (Cout, StateReg i (getRtlReg tb i) (riscv_get_reg (ref tb) i)
                        (negb (getRtlReg tb i =? riscv_get_reg (ref tb) i))).
Proof.
  induction l as [|i l IH]; cbn [reg_dump_lines flat_map].
  - split; [by intros ?%elem_of_nil|]. by intros (i & ?%elem_of_nil & _).
  - fold (reg_dump_lines tb l). rewrite elem_of_app, IH. cbv zeta.
    assert (negb (getRtlReg tb i =? 0) || negb (riscv_get_reg (ref tb) i =? 0) = true
            ↔ getRtlReg tb i ≠ 0 ∨ riscv_get_reg (ref tb) i ≠ 0) as Hnz.
    { rewrite orb_true_iff, !negb_true_iff, !Z.eqb_neq. done. }
    split.
    + intros [Hx|(j & Hj & Hb & ->)].
      * destruct (negb _ || negb _) eqn:Hi; [|by apply elem_of_nil in Hx].
        apply list_elem_of_singleton in Hx as ->. exists i.
        rewrite elem_of_cons. split; [by left|]. split; [by apply Hnz|done].
      * exists j. rewrite elem_of_cons. auto.
    + intros (j & [->|Hj]%elem_of_cons & Hb & ->).
      * left. apply Hnz in Hb. rewrite Hb. by apply list_elem_of_singleton.
      * right. eauto.
Qed.

Lemma reg_dump_lines_length tb (l : list Z) :
  (length (reg_dump_lines tb l) ≤ length l)%nat.
Proof.
  induction l as [|i l IH]; cbn [reg_dump_lines flat_map length]; [done|].
  fold (reg_dump_lines tb l). cbv zeta. rewrite length_app.
  destruct (negb _ || negb _); cbn [length]; lia.
Qed.

(** X9.  [printState] changes nothing but what has been printed.  The
    dump goes to [std::cout]: a header, the hardware program counter
    [cpu_top__DOT__pc] and the reference program counter, a second
    header, and then a line for register [i] exactly when [i] is between
    1 and 31 and one of entry [i] of the hardware register array
    [cpu_top__DOT__regfile__DOT__registers] and register [i] of the
    reference model is not zero; the line carries both values and is
    marked as a mismatch exactly when they differ.  A dump has between 3
    and 34 lines. *)
Theorem printState_report tb :
  let tb' := printState tb in
  (rtl tb' = rtl tb ∧ ref tb' = ref tb ∧ ref_mem tb' = ref_mem tb
   ∧ trace tb' = trace tb ∧ sim_time tb' = sim_time tb
   ∧ tests_passed tb' = tests_passed tb ∧ tests_failed tb' = tests_failed tb
   ∧ cycles_run tb' = cycles_run tb ∧ history tb' = history tb)
  ∧ output tb' = output tb ++ state_dump tb
  ∧ take 3 (state_dump tb)
    = [(Cout, StateHeader);
       (Cout, StatePc (cpu_top__DOT__pc (rtl tb)) (pc (ref tb)));
       (Cout, StateRegsHeader)]
  ∧ (3 ≤ length (state_dump tb) ≤ 34)%nat
  ∧ (∀ x, x ∈ state_dump tb → x.1 = Cout)
  ∧ (∀ i a b f, (Cout, StateReg i a b f) ∈ state_dump tb
                ↔ 1 ≤ i ≤ 31
                  ∧ a = cpu_top__DOT__regfile__DOT__registers (rtl tb) !!! Z.to_nat i
                  ∧ b = regs (ref tb) !!! Z.to_nat i
                  ∧ f = negb (a =? b) ∧ (a ≠ 0 ∨ b ≠ 0)).
Proof.
  cbv zeta. setoid_rewrite <- compared_values. rewrite printState_eq.
  split; [by autorewrite with fields|]. split; [by autorewrite with fields|].
  split; [reflexivity|]. unfold state_dump. split; [|split].
  - rewrite length_app. cbn [length].
    pose proof (reg_dump_lines_length tb (Z.of_nat <$> seq 1 31)) as H.
    rewrite length_fmap, length_seq in H. lia.
  - intros x. rewrite elem_of_app, !elem_of_cons, elem_of_nil.
    rewrite elem_of_reg_dump_lines.
    intros [[->|[->|[->|[]]]]|(i & _ & _ & ->)]; done.
  - intros i a b f. rewrite elem_of_app, !elem_of_cons, elem_of_nil.
    rewrite elem_of_reg_dump_lines. split.
    + intros [[[=]|[[=]|[[=]|[]]]]|(j & Hj%reg_indices & Hb & [= -> -> -> ->])].
      done.
    + intros (Hi & -> & -> & -> & Hnz). right. exists i. by rewrite reg_indices.
Qed.

End Reports.

(** ** More on the lockstep driver *)

Section Driver.

Context {Nets : Type}.
Variable eval : Vcpu_top Nets → Vcpu_top Nets.
Variable riscv_step : RiscvCpu → list Z → RiscvCpu * list Z.
Implicit Types tb : Testbench Nets.

Lemma getRtlReg_reset tb (i : Z) :
  (∀ r, rtl_shape r → rtl_shape (eval r)) →
  rtl_shape (rtl tb) →
  0 ≤ i < 32 →
  getRtlReg (reset eval tb) i = 0.
Proof.
  intros Heval Hshape Hi. unfold getRtlReg. destruct (i =? 0); [done|].
  rewrite reset_rtl_eq, reset_rtl_registers.
  assert (rtl_shape (Nat.iter 5 (cycle eval) (set_rst 1 (rtl tb))))
    as (Hregs & _ & _).
  { apply cycles_shape; [done|]. by destruct (rtl tb). }
  rewrite clear_list by done. apply lookup_total_replicate_2. lia.
Qed.

Lemma riscv_get_reg_reset tb (i : Z) :
  0 ≤ i < 32 → riscv_get_reg (ref (reset eval tb)) i = 0.
Proof.
  intros Hi. rewrite reset_ref. unfold riscv_get_reg. destruct (i =? 0); [done|].
  cbn [regs]. apply lookup_total_replicate_2. lia.
Qed.

(** X10.  Right after [reset] the registers cannot disagree: both
    sides read zero in every register, so that the comparison succeeds
    exactly when the hardware program counter is zero after the five
    cycles under reset, and otherwise reports the program counter
    alone. *)
Theorem compareState_after_reset tb :
  (∀ r, rtl_shape r → rtl_shape (eval r)) →
  rtl_shape (rtl tb) →
  let tb' := reset eval tb in
  (∀ i, 0 ≤ i < 32 → getRtlReg tb' i = 0 ∧ riscv_get_reg (ref tb') i = 0)
  ∧ riscv_get_pc (ref tb') = 0
  ∧ getRtlPc tb' = cpu_top__DOT__pc (Nat.iter 5 (cycle eval) (set_rst 1 (rtl tb)))
  ∧ ((compareState tb').1 = true ↔ getRtlPc tb' = 0)
  ∧ ((compareState tb').1 = false →
     mismatch_lines tb' = [(Cerr, PcMismatch (getRtlPc tb') 0)]).
Proof.
  intros Heval Hshape. cbv zeta.
  assert (∀ i, 0 ≤ i < 32 →
               getRtlReg (reset eval tb) i = 0
               ∧ riscv_get_reg (ref (reset eval tb)) i = 0) as Hregs.
  { intros i Hi. split; [by apply getRtlReg_reset|by apply riscv_get_reg_reset]. }
  assert (riscv_get_pc (ref (reset eval tb)) = 0) as Hpc
    by (by rewrite reset_ref).
  assert (forallb (reg_agrees (reset eval tb)) (Z.of_nat <$> seq 1 31) = true)
    as Hall.
  { apply forallb_forall. intros i Hi%list_elem_of_In%reg_indices.
    unfold reg_agrees. destruct (Hregs i ltac:(lia)) as [-> ->]. done. }
  split; [done|]. split; [done|]. split.
  { unfold getRtlPc. by rewrite reset_rtl_eq. }
  rewrite compareState_eq. cbn [fst]. unfold states_agree, mismatch_lines.
  rewrite Hall, Hpc, andb_true_r. split; [apply Z.eqb_eq|].
  intros ->. by rewrite (proj2 (reg_mismatch_lines_nil _ _) Hall).
Qed.

(** X11.  A test with a cycle budget of zero or less runs no comparison
    round at all and passes: [riscv_step] is never called, the passed
    counter goes up by one, the cycle counter by the five ticks of the
    reset, and the test prints its banner, its PASS line and one state
    dump. *)
Theorem runTest_without_budget (name : string) (program : list Z) (cycles : Z) tb :
  cycles ≤ 0 →
  let t0 := test_start eval name program tb in
  let tb' := runTest eval riscv_step name program cycles tb in
  tests_passed tb' = tests_passed tb + 1
  ∧ tests_failed tb' = tests_failed tb
  ∧ cycles_run tb' = cycles_run tb + 5
  ∧ steps_in (history tb') = steps_in (history tb)
  ∧ rtl tb' = rtl t0 ∧ ref tb' = ref t0 ∧ ref_mem tb' = ref_mem t0
  ∧ output tb'
    = output tb ++ [(Cout, RunningTest name); (Cout, Pass name)] ++ state_dump t0.
Proof.
  intros Hc. cbv zeta.
  assert (Z.to_nat cycles = 0%nat) as Hn by lia.
  rewrite runTest_pass by (rewrite Hn; intros j Hj; lia).
  rewrite Hn. change (after_rounds eval riscv_step 0 ?t) with t.
  autorewrite with fields.
  rewrite !steps_in_app, steps_in_load_ops, steps_in_reset_ops.
  rewrite state_dump_with_counters, state_dump_print, <- !app_assoc.
  split; [reflexivity|]. split; [reflexivity|]. split; [lia|]. split; [lia|].
  split; [reflexivity|]. split; [reflexivity|]. split; [reflexivity|].
  cbn [app]. reflexivity.
Qed.

End Driver.

(** ** A test and the state it starts from *)

Section Independence.

Context {Nets : Type}.
Variable eval : Vcpu_top Nets → Vcpu_top Nets.
Variable riscv_step : RiscvCpu → list Z → RiscvCpu * list Z.
Implicit Types tb : Testbench Nets.

Lemma loadProgram_rtl (p : list Z) tb :
  rtl (loadProgram p tb) = set_array Imem (load_imem p) (rtl tb).
Proof. rewrite loadProgram_eq. reflexivity. Qed.

Lemma loadProgram_ref_mem (p : list Z) tb :
  ref_mem (loadProgram p tb)
  = mkBuffer (addr (ref_mem tb)) (load_bytes p (bytes (ref_mem tb))).
Proof. rewrite loadProgram_eq. reflexivity. Qed.

Lemma stepAndCompare_ref_mem tb :
  ref_mem (stepAndCompare eval riscv_step tb)
  = mkBuffer (addr (ref_mem tb)) (riscv_step (ref tb) (bytes (ref_mem tb))).2.
Proof. rewrite stepAndCompare_eq. cbv zeta. by autorewrite with fields. Qed.

Lemma round_ref_mem tb :
  ref_mem (round eval riscv_step tb).2
  = mkBuffer (addr (ref_mem tb)) (riscv_step (ref tb) (bytes (ref_mem tb))).2.
Proof.
  unfold round. rewrite compareState_eq. cbn [snd]. autorewrite with fields.
  apply stepAndCompare_ref_mem.
Qed.

Lemma states_agree_same tb tb' :
  rtl tb = rtl tb' → ref tb = ref tb' → states_agree tb = states_agree tb'.
Proof.
  intros Hrtl Href. apply states_agree_ext.
  - unfold getRtlPc. by rewrite Hrtl.
  - by rewrite Href.
  - intros i _. unfold getRtlReg. by rewrite Hrtl.
  - intros i _. by rewrite Href.
Qed.

Lemma same_models_round tb tb' :
  same_models tb tb' →
  (round eval riscv_step tb).1 = (round eval riscv_step tb').1
  ∧ same_models (round eval riscv_step tb).2 (round eval riscv_step tb').2.
Proof.
  intros (Hrtl & Href & Hmem). split.
  - rewrite !round_verdict. apply states_agree_same.
    + by rewrite !stepAndCompare_rtl, Hrtl.
    + by rewrite !stepAndCompare_ref, Href, Hmem.
  - unfold same_models. rewrite !round_rtl, !round_ref, !round_ref_mem.
    by rewrite Hrtl, Href, Hmem.
Qed.

Lemma same_models_loop (n : nat) :
  ∀ (i i' : Z) tb tb',
    same_models tb tb' →
    (runTest_loop eval riscv_step n i tb).1 = (runTest_loop eval riscv_step n i' tb').1
    ∧ same_models (runTest_loop eval riscv_step n i tb).2
        (runTest_loop eval riscv_step n i' tb').2
    ∧ cycles_run (runTest_loop eval riscv_step n i tb).2 - cycles_run tb
      = cycles_run (runTest_loop eval riscv_step n i' tb').2 - cycles_run tb'.
Proof.
  induction n as [|n IH]; intros i i' tb tb' Hs.
  - cbn [runTest_loop fst snd]. split; [done|]. split; [done|lia].
  - rewrite !runTest_loop_S.
    destruct (same_models_round tb tb' Hs) as [Hv Hs'].
    rewrite <- Hv. destruct (round eval riscv_step tb).1.
    + destruct (IH (i + 1) (i' + 1) _ _ Hs') as (H1 & H2 & H3).
      split; [done|]. split; [done|].
      rewrite !round_cycles_run in H3. lia.
    + cbn [fst snd]. split; [done|].
      pose proof (round_cycles_run eval riscv_step tb) as Hc.
      pose proof (round_cycles_run eval riscv_step tb') as Hc'.
      destruct Hs' as (Hrtl & Href & Hmem). revert Hc Hc' Hrtl Href Hmem.
      generalize (round eval riscv_step tb).2, (round eval riscv_step tb').2.
      intros s s' Hc Hc' Hrtl Href Hmem. split.
      * unfold same_models. by autorewrite with fields.
      * autorewrite with fields. lia.
Qed.

Lemma same_models_test_start (name name' : string) (p : list Z) tb tb' :
  rtl tb = rtl tb' → ref_mem tb = ref_mem tb' →
  same_models (test_start eval name p tb) (test_start eval name' p tb').
Proof.
  intros Hrtl Hmem. unfold same_models, test_start.
  rewrite !reset_rtl_eq, !reset_ref, !reset_ref_mem.
  rewrite !loadProgram_rtl, !loadProgram_ref_mem.
  autorewrite with fields. by rewrite Hrtl, Hmem.
Qed.

(** X12.  The outcome of a test depends only on the hardware model and
    the reference memory it starts from: run from two testbenches that
    agree on these, under whatever names and with whatever counters,
    output or trace, the same program with the same budget leaves the
    same hardware model, reference CPU and reference memory, and adds the
    same amounts to the passed, failed and cycle counters. *)
Theorem runTest_outcome_independent (name name' : string) (program : list Z)
    (cycles : Z) tb tb' :
  rtl tb = rtl tb' → ref_mem tb = ref_mem tb' →
  let r := runTest eval riscv_step name program cycles tb in
  let r' := runTest eval riscv_step name' program cycles tb' in
  rtl r = rtl r' ∧ ref r = ref r' ∧ ref_mem r = ref_mem r'
  ∧ tests_passed r - tests_passed tb = tests_passed r' - tests_passed tb'
  ∧ tests_failed r - tests_failed tb = tests_failed r' - tests_failed tb'
  ∧ cycles_run r - cycles_run tb = cycles_run r' - cycles_run tb'.
Proof.
  intros Hrtl Hmem. cbv zeta.
  pose proof (same_models_test_start name name' program tb tb' Hrtl Hmem) as Hs.
  destruct (same_models_loop (Z.to_nat cycles) 0 0 _ _ Hs)
    as (Hv & (Hr1 & Hr2 & Hr3) & Hc).
  rewrite !test_start_cycles_run in Hc.
  rewrite !runTest_eq. cbv zeta. rewrite <- Hv.
  destruct (runTest_loop eval riscv_step (Z.to_nat cycles) 0
              (test_start eval name program tb)).1;
    autorewrite with fields;
    rewrite !runTest_loop_tests_passed, !runTest_loop_tests_failed;
    autorewrite with fields;
    (split; [done|]); (split; [done|]); (split; [done|]);
    (split; [lia|]); (split; lia).
Qed.

Lemma cycles_imem (n : nat) (r : Vcpu_top Nets) :
  (∀ r, cpu_top__DOT__imem__DOT__mem (eval r) = cpu_top__DOT__imem__DOT__mem r) →
  cpu_top__DOT__imem__DOT__mem (Nat.iter n (cycle eval) r)
  = cpu_top__DOT__imem__DOT__mem r.
Proof.
  intros Heval. induction n as [|n IH]; [done|].
  rewrite Nat.iter_succ. unfold cycle at 1. rewrite Heval.
  change (cpu_top__DOT__imem__DOT__mem (set_clk 0 ?x))
    with (cpu_top__DOT__imem__DOT__mem x).
  rewrite Heval. exact IH.
Qed.


End Independence.

(** ** The waveform of a whole test *)

Section WaveformOfTests.

Context {Nets : Type}.
Variable eval : Vcpu_top Nets → Vcpu_top Nets.
Variable riscv_step : RiscvCpu → list Z → RiscvCpu * list Z.
Implicit Types tb : Testbench Nets.

Lemma lag_ext tb tb' :
  trace tb' = trace tb → cycles_run tb' = cycles_run tb →
  tracing tb' = tracing tb ∧ lag tb' = lag tb.
Proof. intros Ht Hc. unfold lag, tracing, dumped. by rewrite Ht, Hc. Qed.

Lemma tick_lag tb :
  tracing (tick eval tb) = tracing tb ∧ lag (tick eval tb) = lag tb.
Proof.
  unfold lag, tracing, dumped. rewrite tick_trace_eq, tick_cycles_run.
  destruct (trace tb) as [v|]; [|done].
  cbn [samples]. rewrite length_app. cbn [length]. split; [done|lia].
Qed.

Lemma ticks_lag (l : list nat) :
  ∀ tb, tracing (foldl (λ tb _, tick eval tb) tb l) = tracing tb
        ∧ lag (foldl (λ tb _, tick eval tb) tb l) = lag tb.
Proof.
  induction l as [|i l IH]; intros tb; cbn [foldl]; [done|].
  destruct (IH (tick eval tb)) as [-> ->]. apply tick_lag.
Qed.

Lemma reset_lag tb :
  tracing (reset eval tb) = tracing tb ∧ lag (reset eval tb) = lag tb.
Proof.
  pose proof (ticks_lag (seq 0 5) (record (OpRst 1) (with_rtl (set_rst 1) tb)))
    as [Ht Hl].
  destruct (lag_ext (foldl (λ tb _, tick eval tb)
                       (record (OpRst 1) (with_rtl (set_rst 1) tb)) (seq 0 5))
              (reset eval tb)) as [Ht' Hl'].
  - unfold reset, for_range. rewrite !(foldl_poke _ (λ _, 0)).
    by autorewrite with fields.
  - rewrite reset_cycles_run, ticks_cycles_run. by autorewrite with fields.
  - rewrite Ht', Hl', Ht, Hl. by apply lag_ext.
Qed.

Lemma loadProgram_trace (p : list Z) tb : trace (loadProgram p tb) = trace tb.
Proof. rewrite loadProgram_eq. reflexivity. Qed.

Lemma test_start_lag (name : string) (p : list Z) tb :
  tracing (test_start eval name p tb) = tracing tb
  ∧ lag (test_start eval name p tb) = lag tb.
Proof.
  unfold test_start. destruct (reset_lag (loadProgram p (print Cout (RunningTest name) tb)))
    as [-> ->].
  apply lag_ext; [by rewrite loadProgram_trace|by rewrite loadProgram_cycles_run].
Qed.

Lemma round_lag tb :
  tracing (round eval riscv_step tb).2 = tracing tb
  ∧ lag (round eval riscv_step tb).2 = lag tb.
Proof.
  destruct (tick_lag tb) as [<- <-]. apply lag_ext.
  - unfold round. rewrite compareState_eq. cbn [snd]. autorewrite with fields.
    rewrite stepAndCompare_eq. cbv zeta. by autorewrite with fields.
  - by rewrite round_cycles_run, tick_cycles_run.
Qed.

Lemma runTest_loop_lag (n : nat) :
  ∀ (i : Z) tb,
    tracing (runTest_loop eval riscv_step n i tb).2 = tracing tb
    ∧ lag (runTest_loop eval riscv_step n i tb).2 = lag tb.
Proof.
  induction n as [|n IH]; intros i tb; [done|].
  rewrite runTest_loop_S. destruct (round_lag tb) as [Ht Hl].
  destruct (round eval riscv_step tb).1.
  - destruct (IH (i + 1) (round eval riscv_step tb).2) as [-> ->]. done.
  - cbn [snd]. rewrite <- Ht, <- Hl. apply lag_ext; by autorewrite with fields.
Qed.

Lemma runTest_lag (name : string) (p : list Z) (cycles : Z) tb :
  tracing (runTest eval riscv_step name p cycles tb) = tracing tb
  ∧ lag (runTest eval riscv_step name p cycles tb) = lag tb.
Proof.
  destruct (test_start_lag name p tb) as [<- <-].
  destruct (runTest_loop_lag (Z.to_nat cycles) 0 (test_start eval name p tb))
    as [<- <-].
  rewrite runTest_eq. cbv zeta.
  destruct (runTest_loop _ _ _ _ _).1; apply lag_ext; by autorewrite with fields.
Qed.

(** X14.  A test dumps two samples for every cycle it adds to
    [cycles_run] when a trace is open, and leaves the trace closed when
    none is. *)
Theorem runTest_waveform (name : string) (program : list Z) (cycles : Z) tb :
  let tb' := runTest eval riscv_step name program cycles tb in
  match trace tb with
  | None => trace tb' = None
  | Some v =>
      ∃ v', trace tb' = Some v'
            ∧ Z.of_nat (length (samples v')) - Z.of_nat (length (samples v))
              = 2 * (cycles_run tb' - cycles_run tb)
  end.
Proof.
  cbv zeta. destruct (runTest_lag name program cycles tb) as [Ht Hl].
  unfold lag, tracing, dumped in *.
  destruct (trace tb) as [v|],
    (trace (runTest eval riscv_step name program cycles tb)) as [v'|];
    try done.
  exists v'. split; [done|lia].
Qed.

Lemma run_tests_lag (tests : list (string * list Z * Z)) :
  ∀ tb, tracing (run_tests eval riscv_step tests tb) = tracing tb
        ∧ lag (run_tests eval riscv_step tests tb) = lag tb.
Proof.
  induction tests as [|[[name p] cycles] tests IH]; intros tb; [done|].
  rewrite run_tests_cons. destruct (IH (runTest eval riscv_step name p cycles tb))
    as [-> ->].
  apply runTest_lag.
Qed.

End WaveformOfTests.

(** ** The summary of a run *)

Section Summary.

Context {Nets : Type}.
Variable eval : Vcpu_top Nets → Vcpu_top Nets.
Variable riscv_step : RiscvCpu → list Z → RiscvCpu * list Z.
Implicit Types tb : Testbench Nets.

Lemma runTest_loop_cycles_run (n : nat) :
  ∀ (i : Z) tb,
    cycles_run tb ≤ cycles_run (runTest_loop eval riscv_step n i tb).2
                 ≤ cycles_run tb + Z.of_nat n
    ∧ ((runTest_loop eval riscv_step n i tb).1 = true →
       cycles_run (runTest_loop eval riscv_step n i tb).2
       = cycles_run tb + Z.of_nat n).
Proof.
  induction n as [|n IH]; intros i tb.
  - cbn [runTest_loop fst snd]. lia.
  - rewrite runTest_loop_S. destruct (round eval riscv_step tb).1.
    + destruct (IH (i + 1) (round eval riscv_step tb).2) as [Hb He].
      rewrite round_cycles_run in Hb, He. split; [lia|]. intros H. rewrite He by done. lia.
    + cbn [fst snd]. autorewrite with fields. split; [lia|discriminate].
Qed.

Lemma runTest_cycles_run (name : string) (p : list Z) (cycles : Z) tb :
  cycles_run tb + 5 ≤ cycles_run (runTest eval riscv_step name p cycles tb)
                   ≤ cycles_run tb + 5 + Z.of_nat (Z.to_nat cycles)
  ∧ (test_fails eval riscv_step name p cycles tb = false →
     cycles_run (runTest eval riscv_step name p cycles tb)
     = cycles_run tb + 5 + Z.of_nat (Z.to_nat cycles)).
Proof.
  destruct (runTest_loop_cycles_run (Z.to_nat cycles) 0 (test_start eval name p tb))
    as [Hb He].
  rewrite test_start_cycles_run in Hb, He.
  rewrite runTest_eq. cbv zeta. unfold test_fails.
  destruct (runTest_loop _ _ _ _ _).1; autorewrite with fields; cbn [negb].
  - split; [lia|]. intros _. by apply He.
  - split; [lia|discriminate].
Qed.

Lemma run_tests_summary (tests : list (string * list Z * Z)) :
  ∀ tb,
    let tb' := run_tests eval riscv_step tests tb in
    tests_passed tb' + tests_failed tb'
    = tests_passed tb + tests_failed tb + Z.of_nat (length tests)
    ∧ cycles_run tb + 5 * Z.of_nat (length tests) ≤ cycles_run tb'
      ≤ cycles_run tb + 5 * Z.of_nat (length tests) + total_budget tests
    ∧ (count_failures eval riscv_step tests tb = 0%nat →
       tests_passed tb' = tests_passed tb + Z.of_nat (length tests)
       ∧ cycles_run tb'
         = cycles_run tb + 5 * Z.of_nat (length tests) + total_budget tests).
Proof.
  induction tests as [|[[name p] cycles] tests IH]; intros tb; cbv zeta.
  - cbn. lia.
  - rewrite run_tests_cons.
    destruct (IH (runTest eval riscv_step name p cycles tb)) as (Hs & Hc & Hz).
    cbv zeta in Hs, Hc, Hz.
    destruct (runTest_cycles_run name p cycles tb) as [Hb He].
    rewrite runTest_tests_passed, runTest_tests_failed in Hs.
    rewrite runTest_tests_passed in Hz.
    cbn [length total_budget foldr count_failures snd].
    fold (total_budget tests).
    destruct (test_fails eval riscv_step name p cycles tb).
    + split; [lia|]. split; [lia|]. intros H. lia.
    + split; [lia|]. split; [lia|]. intros H.
      specialize (He eq_refl). specialize (Hz H). lia.
Qed.

Lemma main_state (rtl0 : Vcpu_top Nets) (a : Z) :
  let tb := run_tests eval riscv_step main_tests (main_start rtl0 a) in
  (main eval riscv_step rtl0 a).2
  = print Cout
      (Text (String.append newline
               (if tests_failed tb =? 0 then "*** ALL TESTS PASSED ***"
                else "*** SOME TESTS FAILED ***")))
      (print Cout (TotalCycles (cycles_run tb))
         (print Cout (TestsFailed (tests_failed tb))
            (print Cout (TestsPassed (tests_passed tb))
               (print Cout (Text "========================================")
                  (print Cout (Text "Test Summary")
                     (print Cout
                        (Text (String.append newline
                                 "========================================"))
                        tb)))))).
Proof.
  cbv zeta. unfold main. cbv zeta. fold (main_start rtl0 a).
  change (runTest eval riscv_step "Shifts" test_shift 4 _)
    with (run_tests eval riscv_step main_tests (main_start rtl0 a)).
  autorewrite with fields.
  destruct (tests_failed (run_tests eval riscv_step main_tests (main_start rtl0 a)) =? 0);
    reflexivity.
Qed.

Lemma main_start_state (rtl0 : Vcpu_top Nets) (a : Z) :
  tests_passed (main_start rtl0 a) = 0 ∧ tests_failed (main_start rtl0 a) = 0
  ∧ cycles_run (main_start rtl0 a) = 0
  ∧ tracing (main_start rtl0 a) = true ∧ lag (main_start rtl0 a) = 0.
Proof. repeat split. Qed.

(** X15.  When [main] returns, the five tests have each been counted
    once, as passed or as failed; the cycle counter lies between 25, the
    ticks of the five resets, and 47, the resets and all the budgets; a
    run that returns 0 has passed all five tests and counted 47 cycles;
    the waveform holds two samples for every counted cycle.  After the
    output of the five tests, [main] prints exactly seven more lines, all
    on [std::cout]: the summary banner, whose first line starts with a
    newline character, the three counters with their final values, and
    the verdict, which also starts with a newline character and reads
    ALL TESTS PASSED exactly when the exit status is 0 and SOME TESTS
    FAILED otherwise. *)
Theorem main_summary (rtl0 : Vcpu_top Nets) (a : Z) :
  let r := main eval riscv_step rtl0 a in
  tests_passed r.2 + tests_failed r.2 = 5
  ∧ 25 ≤ cycles_run r.2 ≤ 47
  ∧ (r.1 = 0 → tests_passed r.2 = 5 ∧ tests_failed r.2 = 0 ∧ cycles_run r.2 = 47)
  ∧ (∃ v, trace r.2 = Some v
          ∧ Z.of_nat (length (samples v)) = 2 * cycles_run r.2)
  ∧ output r.2
    = output (run_tests eval riscv_step main_tests (main_start rtl0 a))
      ++ [(Cout, Text (String.append newline
                         "========================================"));
          (Cout, Text "Test Summary");
          (Cout, Text "========================================");
          (Cout, TestsPassed (tests_passed r.2));
          (Cout, TestsFailed (tests_failed r.2));
          (Cout, TotalCycles (cycles_run r.2));
          (Cout, Text (String.append newline
                         (if r.1 =? 0 then "*** ALL TESTS PASSED ***"
                          else "*** SOME TESTS FAILED ***")))].
Proof.
  cbv zeta. destruct (main_eq eval riscv_step rtl0 a) as [Hexit _].
  cbv zeta in Hexit. rewrite Hexit. clear Hexit.
  pose proof (main_state rtl0 a) as Hmain. cbv zeta in Hmain. rewrite Hmain.
  clear Hmain. autorewrite with fields.
  destruct (run_tests_summary main_tests (main_start rtl0 a)) as (Hs & Hc & Hz).
  cbv zeta in Hs, Hc, Hz.
  destruct (run_tests_lag eval riscv_step main_tests (main_start rtl0 a)) as [Ht Hl].
  destruct (main_start_state rtl0 a) as (Hp0 & Hf0 & Hc0 & Ht0 & Hl0).
  rewrite Hp0, Hf0 in Hs. rewrite Hc0 in Hc. rewrite Hp0, Hc0 in Hz.
  rewrite Ht0 in Ht. rewrite Hl0 in Hl.
  change (Z.of_nat (length main_tests)) with 5 in *.
  change (total_budget main_tests) with 22 in *.
  set (tb := run_tests eval riscv_step main_tests (main_start rtl0 a)) in *.
  split; [lia|]. split; [lia|]. split; [|split].
  - destruct (Z.eqb_spec (tests_failed tb) 0) as [Hf|Hf]; [|done]. intros _.
    assert (count_failures eval riscv_step main_tests (main_start rtl0 a) = 0%nat) as Hn.
    { pose proof (run_tests_tests_failed eval riscv_step main_tests (main_start rtl0 a)) as H.
      fold tb in H. rewrite Hf, Hf0 in H. lia. }
    destruct (Hz Hn). lia.
  - unfold lag, tracing, dumped in Ht, Hl.
    destruct (trace tb) as [v|] eqn:Hv; [|done].
    exists v. split; [done|lia].
  - rewrite <- !app_assoc. cbn [app].
    destruct (tests_failed tb =? 0); reflexivity.
Qed.

End Summary.

(** ** What a test prints *)

Section TestOutput.

Context {Nets : Type}.
Variable eval : Vcpu_top Nets → Vcpu_top Nets.
Variable riscv_step : RiscvCpu → list Z → RiscvCpu * list Z.
Implicit Types tb : Testbench Nets.

Lemma after_rounds_S_output (k : nat) tb :
  (∀ j, (j < k)%nat → round_matches eval riscv_step j tb = true) →
  output (after_rounds eval riscv_step (S k) tb)
  = output tb
    ++ mismatch_lines (stepAndCompare eval riscv_step (after_rounds eval riscv_step k tb)).
Proof.
  intros Hall.
  change (after_rounds eval riscv_step (S k) tb)
    with (round eval riscv_step (after_rounds eval riscv_step k tb)).2.
  by rewrite round_output, after_rounds_output.
Qed.

Lemma state_dump_cout tb (x : Stream * Line) : x ∈ state_dump tb → x.1 = Cout.
Proof.
  unfold state_dump. rewrite elem_of_app, !elem_of_cons, elem_of_nil.
  rewrite elem_of_reg_dump_lines.
  intros [[->|[->|[->|[]]]]|(i & _ & _ & ->)]; done.
Qed.

(** X16.  [stepAndCompare] steps both models and, its name
    notwithstanding, compares nothing: it makes one tick and one
    [riscv_step] call and no [compareState] call, prints nothing, and
    leaves the passed and failed counters alone. *)
Theorem stepAndCompare_only_steps tb :
  let tb' := stepAndCompare eval riscv_step tb in
  history tb' = history tb ++ [OpClk 1; OpEval; OpClk 0; OpEval; OpRiscvStep]
  ∧ output tb' = output tb
  ∧ tests_passed tb' = tests_passed tb ∧ tests_failed tb' = tests_failed tb
  ∧ cycles_run tb' = cycles_run tb + 1
  ∧ rtl tb' = eval (set_clk 0 (eval (set_clk 1 (rtl tb))))
  ∧ (ref tb', bytes (ref_mem tb')) = riscv_step (ref tb) (bytes (ref_mem tb))
  ∧ addr (ref_mem tb') = addr (ref_mem tb).
Proof.
  cbv zeta.
  rewrite stepAndCompare_history, stepAndCompare_output, stepAndCompare_tests_passed,
    stepAndCompare_tests_failed, stepAndCompare_cycles_run, stepAndCompare_rtl,
    stepAndCompare_ref, stepAndCompare_bytes, stepAndCompare_addr.
  do 6 (split; [reflexivity|]). split; [|reflexivity].
  by destruct (riscv_step _ _).
Qed.

(** X17.  A test passes exactly when it prints nothing on
    [std::cerr]: the lines a passing test adds to the output all go to
    [std::cout], and a failing test prints at least its "Mismatch at
    cycle" line on [std::cerr]. *)
Theorem runTest_cerr_silent_iff_pass (name : string) (program : list Z)
    (cycles : Z) tb :
  let tb' := runTest eval riscv_step name program cycles tb in
  ∃ new : list (Stream * Line),
    output tb' = output tb ++ new
    ∧ (tests_passed tb' = tests_passed tb + 1 ↔ ∀ x, x ∈ new → x.1 = Cout)
    ∧ (tests_failed tb' = tests_failed tb + 1 ↔ ∃ x, x ∈ new ∧ x.1 = Cerr).
Proof.
  cbv zeta.
  destruct (first_mismatch eval riscv_step (Z.to_nat cycles)
              (test_start eval name program tb)) as [Hall|(k & Hk & Hall & Hbad)].
  - rewrite runTest_pass by done. autorewrite with fields.
    rewrite after_rounds_output, test_start_output by done.
    rewrite state_dump_with_counters, state_dump_print, <- !app_assoc.
    eexists. split; [reflexivity|].
    assert (∀ x, x ∈ [(Cout, RunningTest name)] ++ [(Cout, Pass name)]
                     ++ state_dump (after_rounds eval riscv_step (Z.to_nat cycles)
                                      (test_start eval name program tb))
                 → x.1 = Cout) as Hcout.
    { intros x. rewrite !elem_of_app, !list_elem_of_singleton.
      intros [->|[->|Hx]]; [done|done|]. by apply state_dump_cout in Hx. }
    split; [by split|]. split; [lia|].
    intros (x & Hx%Hcout & Hx'). congruence.
  - rewrite (runTest_fail eval riscv_step name program cycles tb k) by done.
    autorewrite with fields.
    rewrite after_rounds_S_output, test_start_output by done.
    rewrite <- !app_assoc.
    eexists. split; [reflexivity|].
    assert (∀ l1 l2 l3 : list (Stream * Line),
              (Cerr, MismatchAtCycle (Z.of_nat k))
              ∈ l1 ++ l2 ++ [(Cerr, MismatchAtCycle (Z.of_nat k))] ++ l3) as Hin.
    { intros l1 l2 l3. rewrite !elem_of_app, list_elem_of_singleton. auto. }
    split.
    + split; [lia|]. intros H.
      specialize (H (Cerr, MismatchAtCycle (Z.of_nat k)) (Hin _ _ _)). done.
    + split; [|lia]. intros _.
      exists (Cerr, MismatchAtCycle (Z.of_nat k)). split; [apply Hin|done].
Qed.

End TestOutput.

(** ** The further properties at work on the small models *)

Lemma count_eval_imem (r : Vcpu_top unit) :
  cpu_top__DOT__imem__DOT__mem (count_eval r) = cpu_top__DOT__imem__DOT__mem r.
Proof. unfold count_eval. by destruct (clk r =? 1). Qed.

Lemma test_add_words : Forall (λ w, 0 ≤ w < 2 ^ 32) test_add.
Proof. unfold test_add. repeat constructor; lia. Qed.

(** The third word of [test_add] read back from the reference memory. *)
Lemma loadProgram_word_round_trip_witness :
  test_add !! 2%nat = Some 0x002081b3
  ∧ word_at (bytes (ref_mem (loadProgram test_add zero_tb))) 2 = Some 0x002081b3.
Proof.
  pose proof (loadProgram_word_round_trip test_add zero_tb 2 0x002081b3
                zero_tb_bytes ltac:(lia) eq_refl) as [_ H].
  exact (conj eq_refl (H ltac:(lia))).
Defined.

(** [test_imm] loaded after [test_logic]: word 4 is still the fifth word
    of [test_logic]. *)
Lemma loadProgram_ref_mem_rest_witness :
  (4096 ≤ length (bytes (ref_mem zero_tb)))%nat
  ∧ word_at (bytes (ref_mem (loadProgram test_imm (loadProgram test_logic zero_tb)))) 4
    = Some (0x0020C2B3 mod 2 ^ 32).
Proof.
  pose proof (loadProgram_ref_mem_rest test_logic test_imm zero_tb zero_tb_bytes)
    as (_ & _ & H).
  exact (conj zero_tb_bytes (H 4%nat 0x0020C2B3 ltac:(vm_compute; lia) eq_refl)).
Defined.

(** [test_imm] loaded after [test_logic]: the instruction memory is the
    one [test_imm] alone gives. *)
Lemma loadProgram_imem_contents_witness :
  (1024 ≤ length (cpu_top__DOT__imem__DOT__mem (rtl zero_tb)))%nat
  ∧ cpu_top__DOT__imem__DOT__mem (rtl (loadProgram test_imm zero_tb)) !! 4%nat
    = Some NOP
  ∧ cpu_top__DOT__imem__DOT__mem
      (rtl (loadProgram test_imm (loadProgram test_logic zero_tb)))
    = cpu_top__DOT__imem__DOT__mem (rtl (loadProgram test_imm zero_tb)).
Proof.
  pose proof (loadProgram_imem_contents test_logic test_imm zero_tb zero_tb_imem) as H.
  cbv zeta in H. destruct H as (_ & Hnop & _ & _ & Hlast).
  exact (conj zero_tb_imem (conj (Hnop 4%nat ltac:(vm_compute; lia)) Hlast)).
Defined.

(** The first load of [main]. *)
Lemma first_load_memories_agree_witness :
  Forall (λ w, 0 ≤ w < 2 ^ 32) test_add
  ∧ word_at (bytes (ref_mem (loadProgram test_add (Testbench_new zero_rtl 4096)))) 7
    = cpu_top__DOT__imem__DOT__mem
        (rtl (loadProgram test_add (Testbench_new zero_rtl 4096))) !! 7%nat.
Proof.
  pose proof (first_load_memories_agree zero_rtl 4096 test_add
                zero_tb_imem test_add_words) as H.
  cbv zeta in H. exact (conj test_add_words (H 7%nat ltac:(lia))).
Defined.

(** The counting hardware model comes out of reset with its program
    counter at zero. *)
Lemma compareState_after_reset_witness :
  rtl_shape (rtl zero_tb)
  ∧ ((compareState (reset count_eval zero_tb)).1 = true
     ↔ getRtlPc (reset count_eval zero_tb) = 0).
Proof.
  pose proof (compareState_after_reset count_eval zero_tb
                count_eval_shape zero_tb_shape) as H.
  cbv zeta in H. destruct H as (_ & _ & _ & Hiff & _).
  exact (conj zero_tb_shape Hiff).
Defined.

(** A test with a budget of zero. *)
Lemma runTest_without_budget_witness :
  0 ≤ 0
  ∧ tests_passed (runTest count_eval odd_step "Empty" test_add 0 zero_tb)
    = tests_passed zero_tb + 1
  ∧ cycles_run (runTest count_eval odd_step "Empty" test_add 0 zero_tb)
    = cycles_run zero_tb + 5.
Proof.
  pose proof (runTest_without_budget count_eval odd_step "Empty" test_add 0 zero_tb
                (Z.le_refl 0)) as H.
  cbv zeta in H. destruct H as (Hp & _ & Hc & _).
  exact (conj (Z.le_refl 0) (conj Hp Hc)).
Defined.

(** The same test from [zero_tb] and from [traced_tb]. *)
Lemma runTest_outcome_independent_witness :
  rtl zero_tb = rtl traced_tb ∧ ref_mem zero_tb = ref_mem traced_tb
  ∧ tests_failed (runTest count_eval odd_step "A" test_add 4 zero_tb)
    - tests_failed zero_tb
    = tests_failed (runTest count_eval odd_step "B" test_add 4 traced_tb)
      - tests_failed traced_tb.
Proof.
  pose proof (runTest_outcome_independent count_eval odd_step "A" "B" test_add 4
                zero_tb traced_tb eq_refl eq_refl) as H.
  cbv zeta in H. destruct H as (_ & _ & _ & _ & Hf & _).
  exact (conj eq_refl (conj eq_refl Hf)).
Defined.

